(** * Gesprov proxy: session + token handshake and the business routes

    A shallow embedding of [server.js].  The source holds two listings of
    the server: an earlier one (health, auth and cliente routes) and a later
    one that adds the credential guard, [token_type], [gesprovPost] and the
    faturas route.  The functions the two listings share word for word
    ([base64], [requireKey], [openSession]) are embedded once; the others
    live in [Module V1] (earlier listing) and [Module V2] (later listing).

    Library calls of the platform are parameters of the development:
    [JSON_parse] (JSON.parse, [None] when it throws), [Buffer_base64]
    (Buffer.from(s, "utf8").toString("base64")), [Number_toString] (the
    text of a number beyond the safe integers) and the network, an oracle
    answering each [fetch] from the requests issued so far.

    A string holds the UTF-8 bytes of the JavaScript string it stands for
    (a lone surrogate as its three-byte form); where the code counts
    characters, as [slice] does, the model counts UTF-16 code units. *)

From Stdlib Require Import String Ascii List ZArith Lia Bool.
From Stdlib Require Import DecimalString.
Import ListNotations.
Open Scope string_scope.
Open Scope Z_scope.

(** ** JavaScript values *)

(** Values produced by JSON.parse.  Numbers are the integer-valued ones;
    an object is its list of properties in insertion order, one binding
    per name ([assoc] reads the first). *)
#[warnings="-register-all"]
Inductive json : Type :=
| JNull
| JBool (b : bool)
| JNum (n : Z)
| JStr (s : string)
| JArr (items : list json)
| JObj (fields : list (string * json)).

(** A JavaScript value that may be [undefined]. *)
Definition jsval := option json.

Definition undefined : jsval := None.

Fixpoint assoc {A : Type} (k : string) (l : list (string * A)) : option A :=
  match l with
  | [] => None
  | (k', v) :: rest => if String.eqb k k' then Some v else assoc k rest
  end.

(** [v.k] for the property names the server reads ([erro], [data],
    [access_token], ...): none of them is a built-in property of strings,
    numbers, booleans or arrays, so only objects answer. *)
Definition prop (v : json) (k : string) : jsval :=
  match v with
  | JObj fields => assoc k fields
  | _ => undefined
  end.

(** [v?.k]: undefined on null and undefined, the property otherwise. *)
Definition opt_chain (v : jsval) (k : string) : jsval :=
  match v with
  | None | Some JNull => undefined
  | Some j => prop j k
  end.

Notation "v '?.' k" := (opt_chain v k) (at level 40, left associativity).

(** ToBoolean. *)
Definition truthy (v : jsval) : bool :=
  match v with
  | None | Some JNull => false
  | Some (JBool b) => b
  | Some (JNum n) => negb (n =? 0)
  | Some (JStr s) => negb (String.eqb s "")
  | Some (JArr _) | Some (JObj _) => true
  end.

(** [a || b]. *)
Definition js_or (a b : jsval) : jsval := if truthy a then a else b.

Notation "a '|||' b" := (js_or a b) (at level 50, left associativity).

(** [a ?? b] with a defined right-hand side. *)
Definition nullish (a : jsval) (b : json) : json :=
  match a with
  | None | Some JNull => b
  | Some j => j
  end.

(** A string or undefined tested for truth: the empty string is falsy. *)
Definition truthy_str (o : option string) : bool :=
  match o with
  | Some s => negb (String.eqb s "")
  | None => false
  end.

(** [`${o}`] for a string that may be undefined. *)
Definition tpl (o : option string) : string :=
  match o with
  | Some s => s
  | None => "undefined"
  end.

Definition string_of_Z (n : Z) : string := NilZero.string_of_int (Z.to_int n).

(** Array.prototype.join(","): null elements print as the empty string. *)
Fixpoint join_with (sep : string) (l : list string) : string :=
  match l with
  | [] => ""
  | [x] => x
  | x :: rest => x ++ sep ++ join_with sep rest
  end.

(** All the results, or nothing when one of them is missing. *)
Fixpoint all_some {A : Type} (l : list (option A)) : option (list A) :=
  match l with
  | [] => Some []
  | None :: _ => None
  | Some a :: rest =>
      match all_some rest with
      | Some l' => Some (a :: l')
      | None => None
      end
  end.

(** The safe integers are printed in plain decimal; beyond them the text
    is the platform's ([big]): shortest round-trip digits, exponent
    notation from 1e21 on. *)
Definition print_number (big : Z -> string) (n : Z) : string :=
  if Z.abs n <? 9007199254740992 then string_of_Z n else big n.

(** String(v), ToString: [None] is the TypeError thrown on an object that
    has a property named toString.  A value of JSON.parse is no function,
    so the conversion finds nothing to call there, and the inherited
    valueOf returns the object itself.  An array prints its elements
    joined by commas and throws when one of them does. *)
Fixpoint js_String (big : Z -> string) (v : json) : option string :=
  match v with
  | JNull => Some "null"
  | JBool true => Some "true"
  | JBool false => Some "false"
  | JNum n => Some (print_number big n)
  | JStr s => Some s
  | JArr items =>
      match
        all_some
          (map (fun x => match x with JNull => Some "" | _ => js_String big x end) items)
      with
      | Some texts => Some (join_with "," texts)
      | None => None
      end
  | JObj fields =>
      match assoc "toString" fields with
      | Some _ => None
      | None => Some "[object Object]"
      end
  end.

(** [String(v)] and [`${v}`] for a value that may be undefined. *)
Definition tpl_val (big : Z -> string) (v : jsval) : option string :=
  match v with
  | Some j => js_String big j
  | None => Some "undefined"
  end.

(** ** String helpers *)

Definition is_digit (c : ascii) : bool :=
  let n := nat_of_ascii c in (48 <=? n)%nat && (n <=? 57)%nat.

(** [s.replace(/\D/g, "")]. *)
Fixpoint digits_only (s : string) : string :=
  match s with
  | EmptyString => EmptyString
  | String c rest =>
      if is_digit c then String c (digits_only rest) else digits_only rest
  end.

(** [s.replace(/\/$/, "")]: one trailing slash is dropped. *)
Fixpoint strip_trailing_slash (s : string) : string :=
  match s with
  | EmptyString => EmptyString
  | String c EmptyString => if Ascii.eqb c "/" then EmptyString else s
  | String c rest => String c (strip_trailing_slash rest)
  end.

(** A continuation byte of a UTF-8 sequence, and the lead byte of a
    four-byte sequence: a character outside the basic plane, two UTF-16
    code units. *)
Definition is_continuation (c : ascii) : bool :=
  let n := nat_of_ascii c in (128 <=? n)%nat && (n <? 192)%nat.

Definition is_lead4 (c : ascii) : bool := (240 <=? nat_of_ascii c)%nat.

(** [s.length]: the number of UTF-16 code units. *)
Fixpoint utf16_length (s : string) : nat :=
  match s with
  | EmptyString => 0%nat
  | String c rest =>
      ((if is_continuation c then 0 else if is_lead4 c then 2 else 1)
       + utf16_length rest)%nat
  end.

(** The high surrogate of the four-byte character with lead byte [c] and
    continuation bytes [rest], in its three-byte form: what is left of the
    character when a slice ends between its two code units. *)
Definition lone_high_surrogate (c : ascii) (rest : string) : string :=
  let b1 := match rest with String b _ => nat_of_ascii b | EmptyString => 128%nat end in
  let b2 :=
    match rest with
    | String _ (String b _) => nat_of_ascii b
    | _ => 128%nat
    end in
  let top := ((nat_of_ascii c mod 8) * 256 + (b1 mod 64) * 4 + (b2 mod 64) / 16)%nat in
  let w := ((top - 64) mod 1024)%nat in
  String (ascii_of_nat 237)
    (String (ascii_of_nat (160 + w / 64))
       (String (ascii_of_nat (128 + w mod 64)) EmptyString)).

(** [s.slice(0, n)]: the first [n] UTF-16 code units. *)
Fixpoint slice0 (n : nat) (s : string) : string :=
  match s with
  | EmptyString => EmptyString
  | String c rest =>
      if is_continuation c then String c (slice0 n rest)
      else
        match n with
        | O => EmptyString
        | S n' =>
            if is_lead4 c then
              match n' with
              | O => lone_high_surrogate c rest
              | S n'' => String c (slice0 n'' rest)
              end
            else String c (slice0 n' rest)
        end
  end.

(** [s.startsWith("/")]. *)
Definition starts_with_slash (s : string) : bool :=
  match s with
  | String c _ => Ascii.eqb c "/"
  | EmptyString => false
  end.

(** ** The session-cookie pattern /PHPSESSID=[^;]+/i *)

Definition upcase (c : ascii) : ascii :=
  let n := nat_of_ascii c in
  if (97 <=? n)%nat && (n <=? 122)%nat then ascii_of_nat (n - 32) else c.

(** The input after a case-insensitive occurrence of [p] at its start. *)
Fixpoint skip_prefix_ci (p s : string) : option string :=
  match p, s with
  | EmptyString, _ => Some s
  | String a p', String b s' =>
      if Ascii.eqb (upcase a) (upcase b) then skip_prefix_ci p' s' else None
  | String _ _, EmptyString => None
  end.

(** The longest prefix without a semicolon: the greedy [[^;]+]. *)
Fixpoint take_non_semi (s : string) : string :=
  match s with
  | EmptyString => EmptyString
  | String c rest =>
      if Ascii.eqb c ";" then EmptyString else String c (take_non_semi rest)
  end.

(** The match of the pattern anchored at the start of [s]. *)
Definition match_here (s : string) : option string :=
  match skip_prefix_ci "PHPSESSID=" s with
  | Some rest =>
      match take_non_semi rest with
      | EmptyString => None
      | value => Some (substring 0 10 s ++ value)
      end
  | None => None
  end.

(** [s.match(/PHPSESSID=[^;]+/i)?.[0]]: the leftmost match. *)
Fixpoint match_PHPSESSID (s : string) : option string :=
  match match_here s with
  | Some m => Some m
  | None =>
      match s with
      | EmptyString => None
      | String _ rest => match_PHPSESSID rest
      end
  end.

(** ** Requests, responses and the effect monad *)

Inductive http_method : Type := GET | POST.

(** An outbound [fetch] call; the body is the value handed to
    JSON.stringify. *)
Record request : Type := mkRequest {
  req_method : http_method;
  req_url : string;
  req_headers : list (string * string);
  req_body : option json
}.

(** What the server reads of an upstream response: [r.status],
    [r.headers.get("set-cookie")] and [await r.text()]. *)
Record response : Type := mkResponse {
  status : Z;
  set_cookie : option string;
  text : string
}.

(** [r.ok] *)
Definition ok (r : response) : bool := (200 <=? status r) && (status r <=? 299).

(** The calls issued so far, oldest first. *)
Definition trace := list request.

(** The network: the answer to a call given the earlier calls; [None]
    when [fetch] rejects. *)
Definition network := trace -> request -> option response.

Inductive outcome (A : Type) : Type :=
| Returned (a : A)
| Thrown.

Arguments Returned {A} a.
Arguments Thrown {A}.

(** An async computation: it extends the trace and returns or throws. *)
Definition io (A : Type) : Type := trace -> outcome A * trace.

Definition ret {A : Type} (a : A) : io A := fun tr => (Returned a, tr).

Definition throw {A : Type} : io A := fun tr => (Thrown, tr).

(** A step that either has a value or throws. *)
Definition or_throw {A : Type} (o : option A) : io A :=
  match o with
  | Some a => ret a
  | None => throw
  end.

Definition bind {A B : Type} (m : io A) (k : A -> io B) : io B :=
  fun tr =>
    match m tr with
    | (Returned a, tr') => k a tr'
    | (Thrown, tr') => (Thrown, tr')
    end.

(** [try { m } catch { h }] *)
Definition try_catch {A : Type} (m : io A) (h : io A) : io A :=
  fun tr =>
    match m tr with
    | (Returned a, tr') => (Returned a, tr')
    | (Thrown, tr') => h tr'
    end.

Declare Scope io_scope.
Delimit Scope io_scope with io.
Notation "x <- m ;; k" := (bind m (fun x => k))
  (at level 100, m at next level, right associativity) : io_scope.
Notation "' pat <- m ;; k" := (bind m (fun x => match x with pat => k end))
  (at level 100, pat pattern, m at next level, right associativity) : io_scope.
Open Scope io_scope.

Definition fetch (net : network) (rq : request) : io response :=
  fun tr =>
    (match net tr rq with
     | Some r => Returned r
     | None => Thrown
     end, (tr ++ [rq])%list).

(** An outbound result sent with [res.status(s).json(body)]. *)
Record reply : Type := mkReply {
  reply_status : Z;
  reply_body : json
}.

(** [res.json(body)]: status 200. *)
Definition res_json (body : json) : reply := mkReply 200 body.

(** An object literal as JSON.stringify sees it: properties whose value
    is undefined are left out. *)
Fixpoint obj_fields (l : list (string * jsval)) : list (string * json) :=
  match l with
  | [] => []
  | (k, Some v) :: rest => (k, v) :: obj_fields rest
  | (_, None) :: rest => obj_fields rest
  end.

Definition obj (l : list (string * jsval)) : json := JObj (obj_fields l).

(** ** The host: process environment and platform calls *)

Record host : Type := mkHost {
  GESPROV_URL : option string;
  GESPROV_CLIENT_ID : option string;
  GESPROV_CLIENT_SECRET : option string;
  PROXY_API_KEY : option string;
  GESPROV_PHPSESSID : option string;
  JSON_parse : string -> option json;
  Buffer_base64 : string -> string;
  Number_toString : Z -> string;
  net : network
}.

(** [String(v)] and [`${v}`] on the host. *)
Definition String_of (h : host) (v : jsval) : option string :=
  tpl_val (Number_toString h) v.

(** An inbound request: the two key headers and [req.body]. *)
Record inbound : Type := mkInbound {
  header_x_api_key : option string;
  header_api_key : option string;
  body : jsval
}.

Definition base64 (h : host) (str : string) : string := Buffer_base64 h str.

(** [let payload = null; try { payload = JSON.parse(text); } catch {}] *)
Definition parse_or_null (h : host) (text : string) : json :=
  match JSON_parse h text with
  | Some j => j
  | None => JNull
  end.

(** [o || ""] on a string that may be undefined. *)
Definition or_empty (o : option string) : string :=
  match o with
  | Some s => s
  | None => ""
  end.

(** [a || b] on strings. *)
Definition str_or (a b : string) : string := if String.eqb a "" then b else a.

Inductive key_check : Type :=
| KeyOk
| KeyRejected (sent : reply).

Definition strict_eq_str (a b : option string) : bool :=
  match a, b with
  | Some x, Some y => String.eqb x y
  | None, None => true
  | _, _ => false
  end.

Definition requireKey (h : host) (req : inbound) : key_check :=
  if negb (truthy_str (PROXY_API_KEY h)) then KeyOk
  else
    let key :=
      if truthy_str (header_x_api_key req) then header_x_api_key req
      else header_api_key req in
    if negb (strict_eq_str key (PROXY_API_KEY h)) then
      KeyRejected
        (mkReply 401 (obj [("error", Some (JStr "Unauthorized (invalid proxy key)"))]))
    else KeyOk.

Definition probe_request (url : string) : request := mkRequest GET url [] None.

Definition tries (baseUrl : string) : list string :=
  [baseUrl ++ "/"; baseUrl ++ "/ges-api/"; baseUrl ++ "/ges-api/v1/"].

(** The body of the [for] loop of [openSession] over the remaining
    candidates. *)
Fixpoint probe (h : host) (urls : list string) : io (option string) :=
  match urls with
  | [] => ret None
  | url :: rest =>
      m <- try_catch
             (r <- fetch (net h) (probe_request url) ;;
              ret (match set_cookie r with
                   | Some setCookie => match_PHPSESSID setCookie
                   | None => None
                   end))
             (ret None) ;;
      match m with
      | Some m0 => ret (Some m0)
      | None => probe h rest
      end
  end.

Definition openSession (h : host) (baseUrl : string) : io (option string) :=
  probe h (tries baseUrl).

(** The result of [getToken]: [{ok: false, status, raw}] or
    [{ok: true, access_token, token_type}]. *)
Inductive tokenResult : Type :=
| TokFail (tok_status : Z) (raw : json)
| TokOk (access_token token_type : jsval).

Definition token_request (h : host) (baseUrl cookie : string) : request :=
  mkRequest POST (baseUrl ++ "/ges-api/v1/token")
    [("Authorization",
      "Basic " ++ base64 h (tpl (GESPROV_CLIENT_ID h) ++ ":" ++ tpl (GESPROV_CLIENT_SECRET h)));
     ("Cookie", cookie);
     ("Content-Type", "application/json");
     ("Accept", "application/json, text/plain, */*");
     ("User-Agent", "railway-proxy")]
    (Some (JObj [])).

(** [const {k} = v] on a defined value. *)
Definition destructure (v : jsval) (k : string) : jsval :=
  match v with
  | Some j => prop j k
  | None => undefined
  end.

(** A destructuring default: it applies to undefined only. *)
Definition default_to (v : jsval) (d : json) : jsval :=
  match v with
  | None => Some d
  | Some _ => v
  end.

(** [payload.erro === "usuario_invalido" ? 401 : 400] *)
Definition erro_status (erro : jsval) : Z :=
  match erro with
  | Some (JStr s) => if String.eqb s "usuario_invalido" then 401 else 400
  | _ => 400
  end.

(** [status || 500] *)
Definition status_or_500 (st : Z) : Z := if st =? 0 then 500 else st.

(** [if (!o)] on a string that may be null: the truthy case keeps the
    string. *)
Definition as_truthy (o : option string) : option string :=
  match o with
  | Some s => if String.eqb s "" then None else Some s
  | None => None
  end.

(** ** The earlier listing *)

Module V1.

Definition getToken (h : host) (baseUrl phpsessid : string) : io tokenResult :=
  r <- fetch (net h) (token_request h baseUrl phpsessid) ;;
  let txt := text r in
  let payload := parse_or_null h txt in
  if negb (ok r) then ret (TokFail (status r) (JStr txt))
  else if truthy (Some payload ?. "erro") then ret (TokFail 401 payload)
  else
    let access_token :=
      Some payload ?. "data" ?. "access_token"
        ||| Some payload ?. "access_token"
        ||| Some payload ?. "token_acesso" in
    let token_type :=
      Some payload ?. "data" ?. "token_type"
        ||| Some payload ?. "token_type"
        ||| Some (JStr "Bearer") in
    if negb (truthy access_token) then
      ret (TokFail 502 (nullish (Some payload) (JStr txt)))
    else ret (TokOk access_token token_type).

(** The result of [authCycle]: [{ok: false, status, error, raw}] or
    [{ok: true, cookie, token}]. *)
Inductive authResult : Type :=
| AuthFail (auth_status : Z) (error : string) (raw : jsval)
| AuthOk (cookie : string) (token : jsval).

Definition authCycle (h : host) : io authResult :=
  let baseUrl := strip_trailing_slash (or_empty (GESPROV_URL h)) in
  if String.eqb baseUrl "" then ret (AuthFail 500 "GESPROV_URL not set" undefined)
  else
    sid <- openSession h baseUrl ;;
    match as_truthy sid with
    | None =>
        let fixed :=
          if truthy_str (GESPROV_PHPSESSID h)
          then Some ("PHPSESSID=" ++ tpl (GESPROV_PHPSESSID h))
          else None in
        match as_truthy fixed with
        | None =>
            ret (AuthFail 502 "Could not obtain PHPSESSID (session required)" undefined)
        | Some fixed =>
            tok <- getToken h baseUrl fixed ;;
            match tok with
            | TokFail st raw => ret (AuthFail st "Token failed" (Some raw))
            | TokOk access_token _ => ret (AuthOk fixed access_token)
            end
        end
    | Some sid =>
        tok <- getToken h baseUrl sid ;;
        match tok with
        | TokFail st raw => ret (AuthFail st "Token failed" (Some raw))
        | TokOk access_token _ => ret (AuthOk sid access_token)
        end
    end.

(** [res.json(auth)] *)
Definition json_of_auth (a : authResult) : json :=
  match a with
  | AuthFail st e raw =>
      obj [("ok", Some (JBool false)); ("status", Some (JNum st));
           ("error", Some (JStr e)); ("raw", raw)]
  | AuthOk cookie token =>
      obj [("ok", Some (JBool true)); ("cookie", Some (JStr cookie)); ("token", token)]
  end.

(** POST /gesprov/auth *)
Definition post_gesprov_auth (h : host) (req : inbound) : io reply :=
  match requireKey h req with
  | KeyRejected sent => ret sent
  | KeyOk =>
      auth <- authCycle h ;;
      match auth with
      | AuthFail st _ _ => ret (mkReply (status_or_500 st) (json_of_auth auth))
      | AuthOk cookie token =>
          ret (res_json (obj [("ok", Some (JBool true));
                              ("cookie", Some (JStr cookie));
                              ("token", token)]))
      end
  end.

(** The body object, from the text [String(cpf_cnpj)] gave. *)
Definition cliente_body (cpf_text : string) (enviar_contratos enviar_servicos : jsval)
  : json :=
  obj [("cpf_cnpj", Some (JStr (digits_only cpf_text)));
       ("enviar_contratos", enviar_contratos);
       ("enviar_servicos", enviar_servicos)].

(** The call, from the text [`${auth.token}`] gave. *)
Definition cliente_request (url cookie token_text : string) (bodyObj : json)
  : request :=
  mkRequest POST url
    [("Content-Type", "text/plain");
     ("Authorization", "Bearer " ++ token_text);
     ("Cookie", cookie);
     ("User-Agent", "railway-proxy")]
    (Some bodyObj).

(** POST /gesprov/cliente *)
Definition post_gesprov_cliente (h : host) (req : inbound) : io reply :=
  match requireKey h req with
  | KeyRejected sent => ret sent
  | KeyOk =>
      let b := body req ||| Some (JObj []) in
      let cpf_cnpj := destructure b "cpf_cnpj" in
      let enviar_contratos := default_to (destructure b "enviar_contratos") (JStr "Todos") in
      let enviar_servicos := default_to (destructure b "enviar_servicos") (JStr "Todos") in
      if negb (truthy cpf_cnpj) then
        ret (mkReply 400 (obj [("error", Some (JStr "cpf_cnpj obrigatório"))]))
      else
        auth <- authCycle h ;;
        match auth with
        | AuthFail st _ _ => ret (mkReply (status_or_500 st) (json_of_auth auth))
        | AuthOk cookie token =>
            match GESPROV_URL h with
            | None => throw
            | Some gesprov_url =>
                let baseUrl := strip_trailing_slash gesprov_url in
                let url := baseUrl ++ "/ges-api/v1/identificacao-cliente" in
                cpf_text <- or_throw (String_of h cpf_cnpj) ;;
                let bodyObj := cliente_body cpf_text enviar_contratos enviar_servicos in
                token_text <- or_throw (String_of h token) ;;
                r <- fetch (net h) (cliente_request url cookie token_text bodyObj) ;;
                let txt := text r in
                let payload := parse_or_null h txt in
                if truthy (Some payload ?. "erro") then
                  ret (mkReply (erro_status (Some payload ?. "erro")) payload)
                else if negb (ok r) then
                  ret (mkReply 502
                         (obj [("error", Some (JStr ("Gesprov error " ++ string_of_Z (status r))));
                               ("raw", Some (JStr (slice0 800 txt)))]))
                else ret (res_json (nullish (Some payload) (obj [("raw", Some (JStr txt))])))
            end
        end
  end.

End V1.

(** ** The later listing *)

Module V2.

Definition getToken (h : host) (baseUrl phpsessidCookie : string) : io tokenResult :=
  r <- fetch (net h) (token_request h baseUrl phpsessidCookie) ;;
  let txt := text r in
  let payload := parse_or_null h txt in
  if negb (ok r) then ret (TokFail (status r) (nullish (Some payload) (JStr txt)))
  else if truthy (Some payload ?. "erro") then ret (TokFail 401 payload)
  else
    let access_token :=
      Some payload ?. "data" ?. "access_token"
        ||| Some payload ?. "access_token"
        ||| Some payload ?. "token_acesso" in
    let token_type :=
      Some payload ?. "data" ?. "token_type"
        ||| Some payload ?. "token_type"
        ||| Some (JStr "Bearer") in
    if negb (truthy access_token) then
      ret (TokFail 502 (nullish (Some payload) (JStr txt)))
    else ret (TokOk access_token token_type).

(** The result of [authCycle]: [{ok: false, status, error, raw}] or
    [{ok: true, cookie, token, token_type}]. *)
Inductive authResult : Type :=
| AuthFail (auth_status : Z) (error : string) (raw : jsval)
| AuthOk (cookie : string) (token token_type : jsval).

Definition authCycle (h : host) : io authResult :=
  let baseUrl := strip_trailing_slash (or_empty (GESPROV_URL h)) in
  if String.eqb baseUrl "" then ret (AuthFail 500 "GESPROV_URL not set" undefined)
  else if negb (truthy_str (GESPROV_CLIENT_ID h))
          || negb (truthy_str (GESPROV_CLIENT_SECRET h)) then
    ret (AuthFail 500 "GESPROV_CLIENT_ID / GESPROV_CLIENT_SECRET not set" undefined)
  else
    sid <- openSession h baseUrl ;;
    let fixed :=
      if truthy_str (GESPROV_PHPSESSID h)
      then Some ("PHPSESSID=" ++ tpl (GESPROV_PHPSESSID h))
      else None in
    let cookie := if truthy_str sid then sid else fixed in
    match as_truthy cookie with
    | None =>
        ret (AuthFail 502 "Could not obtain PHPSESSID (session required)" undefined)
    | Some cookie =>
        tok <- getToken h baseUrl cookie ;;
        match tok with
        | TokFail st raw => ret (AuthFail st "Token failed" (Some raw))
        | TokOk access_token token_type => ret (AuthOk cookie access_token token_type)
        end
    end.

(** [res.json(auth)] *)
Definition json_of_auth (a : authResult) : json :=
  match a with
  | AuthFail st e raw =>
      obj [("ok", Some (JBool false)); ("status", Some (JNum st));
           ("error", Some (JStr e)); ("raw", raw)]
  | AuthOk cookie token token_type =>
      obj [("ok", Some (JBool true)); ("cookie", Some (JStr cookie));
           ("token", token); ("token_type", token_type)]
  end.

(** The call, from the text [`${auth.token}`] gave. *)
Definition gesprov_request (url contentType cookie token_text : string)
  (bodyObj : json) : request :=
  mkRequest POST url
    [("Content-Type", contentType);
     ("Authorization", "Bearer " ++ token_text);
     ("Cookie", cookie);
     ("User-Agent", "railway-proxy");
     ("Accept", "application/json, text/plain, */*")]
    (Some bodyObj).

(** [gesprovPost({endpoint, auth, bodyObj, contentType})]: the response,
    its text and the parsed payload. *)
Definition gesprovPost (h : host) (endpoint : string) (cookie : string)
  (token : jsval) (bodyObj : jsval) (contentType : string)
  : io (response * string * json) :=
  let baseUrl := strip_trailing_slash (or_empty (GESPROV_URL h)) in
  let url := baseUrl ++ (if starts_with_slash endpoint then "" else "/") ++ endpoint in
  let body :=
    if String.eqb contentType "application/json"
    then nullish bodyObj (JObj [])
    else nullish bodyObj (JObj []) in
  token_text <- or_throw (String_of h token) ;;
  r <- fetch (net h) (gesprov_request url contentType cookie token_text body) ;;
  let txt := text r in
  let payload := parse_or_null h txt in
  ret (r, txt, payload).

(** POST /gesprov/auth *)
Definition post_gesprov_auth (h : host) (req : inbound) : io reply :=
  match requireKey h req with
  | KeyRejected sent => ret sent
  | KeyOk =>
      auth <- authCycle h ;;
      match auth with
      | AuthFail st _ _ => ret (mkReply (status_or_500 st) (json_of_auth auth))
      | AuthOk cookie token token_type =>
          ret (res_json (obj [("ok", Some (JBool true));
                              ("cookie", Some (JStr cookie));
                              ("token", token);
                              ("token_type", token_type)]))
      end
  end.

(** The body object, from the text [String(cpf_cnpj)] gave. *)
Definition cliente_body (cpf_text : string) (enviar_contratos enviar_servicos : jsval)
  : json :=
  obj [("cpf_cnpj", Some (JStr (digits_only cpf_text)));
       ("enviar_contratos", enviar_contratos);
       ("enviar_servicos", enviar_servicos)].

(** POST /gesprov/cliente *)
Definition post_gesprov_cliente (h : host) (req : inbound) : io reply :=
  match requireKey h req with
  | KeyRejected sent => ret sent
  | KeyOk =>
      let b := body req ||| Some (JObj []) in
      let cpf_cnpj := destructure b "cpf_cnpj" in
      let enviar_contratos := default_to (destructure b "enviar_contratos") (JStr "Todos") in
      let enviar_servicos := default_to (destructure b "enviar_servicos") (JStr "Todos") in
      if negb (truthy cpf_cnpj) then
        ret (mkReply 400 (obj [("error", Some (JStr "cpf_cnpj obrigatório"))]))
      else
        auth <- authCycle h ;;
        match auth with
        | AuthFail st _ _ => ret (mkReply (status_or_500 st) (json_of_auth auth))
        | AuthOk cookie token _ =>
            cpf_text <- or_throw (String_of h cpf_cnpj) ;;
            let bodyObj := cliente_body cpf_text enviar_contratos enviar_servicos in
            '(r, txt, payload) <-
              gesprovPost h "/ges-api/v1/identificacao-cliente" cookie token
                (Some bodyObj) "text/plain" ;;
            if truthy (Some payload ?. "erro") then
              ret (mkReply (erro_status (Some payload ?. "erro")) payload)
            else if negb (ok r) then
              ret (mkReply 502
                     (obj [("error", Some (JStr ("Gesprov error " ++ string_of_Z (status r))));
                           ("raw", Some (JStr (slice0 1200 (str_or txt ""))))]))
            else ret (res_json (nullish (Some payload) (obj [("raw", Some (JStr txt))])))
        end
  end.

(** The properties of [req.body] left for [...rest]. *)
Definition rest_fields (b : jsval) : list (string * json) :=
  match b with
  | Some (JObj fields) =>
      filter (fun kv => negb (String.eqb (fst kv) "cpf_cnpj"
                              || String.eqb (fst kv) "situacao_titulo")) fields
  | _ => []
  end.

Definition ENDPOINT_FATURAS : string := "/ges-api/v1/faturas".

(** The body object, from the text [String(cpf_cnpj)] gave. *)
Definition faturas_body (cpf_text : string) (situacao_titulo : jsval)
  (rest : list (string * json)) : json :=
  JObj (obj_fields [("cpf_cnpj", Some (JStr (digits_only cpf_text)));
                    ("situacao_titulo", situacao_titulo)] ++ rest)%list.

(** POST /gesprov/faturas *)
Definition post_gesprov_faturas (h : host) (req : inbound) : io reply :=
  match requireKey h req with
  | KeyRejected sent => ret sent
  | KeyOk =>
      try_catch
        (let b := body req ||| Some (JObj []) in
         let cpf_cnpj := destructure b "cpf_cnpj" in
         let situacao_titulo := destructure b "situacao_titulo" in
         let rest := rest_fields b in
         if negb (truthy cpf_cnpj) then
           ret (mkReply 400 (obj [("error", Some (JStr "cpf_cnpj obrigatório"))]))
         else
           auth <- authCycle h ;;
           match auth with
           | AuthFail st _ _ => ret (mkReply (status_or_500 st) (json_of_auth auth))
           | AuthOk cookie token _ =>
               cpf_text <- or_throw (String_of h cpf_cnpj) ;;
               let bodyObj := faturas_body cpf_text situacao_titulo rest in
               '(r, txt, payload) <-
                 gesprovPost h ENDPOINT_FATURAS cookie token (Some bodyObj) "text/plain" ;;
               if truthy (Some payload ?. "erro") then
                 ret (mkReply (erro_status (Some payload ?. "erro")) payload)
               else if negb (ok r) then
                 ret (mkReply (status r)
                        (obj [("error", Some (JStr "Erro ao buscar faturas no Gesprov."));
                              ("details",
                               Some (nullish (Some payload)
                                       (obj [("raw", Some (JStr (slice0 1200 (str_or txt ""))))])))]))
               else
                 ret (mkReply 200
                        (obj [("success", Some (JBool true));
                              ("faturas",
                               Some payload ?. "titulos"
                                 ||| Some payload ?. "faturas"
                                 ||| Some payload ?. "data"
                                 ||| Some payload)]))
           end)
        (ret (mkReply 500 (obj [("error", Some (JStr "Erro interno no proxy ao buscar faturas."))])))
  end.

End V2.

(** ** Statement vocabulary *)

(** The base URL every component works from. *)
Definition base_url (h : host) : string := strip_trailing_slash (or_empty (GESPROV_URL h)).

(** The decoding rule in the words of the specification: an ordered list of
    known shapes, the first usable one wins. *)
Definition first_match (candidates : list jsval) : option jsval := find truthy candidates.

(** The host with another fallback session id configured. *)
Definition with_PHPSESSID (fixed : option string) (h : host) : host :=
  mkHost (GESPROV_URL h) (GESPROV_CLIENT_ID h) (GESPROV_CLIENT_SECRET h)
    (PROXY_API_KEY h) fixed (JSON_parse h) (Buffer_base64 h) (Number_toString h) (net h).

(** The destructured body of a business request. *)
Definition body_field (req : inbound) (k : string) : jsval :=
  destructure (body req ||| Some (JObj [])) k.

(** Whether String() prints the value, and the text it gives then. *)
Definition prints (h : host) (v : jsval) : bool :=
  match String_of h v with
  | Some _ => true
  | None => false
  end.

Definition printed (h : host) (v : jsval) : string :=
  match String_of h v with
  | Some s => s
  | None => EmptyString
  end.

(** The upstream call of the cliente route in the later listing, for a
    cpf_cnpj and a token that String() prints. *)
Definition cliente_call (h : host) (req : inbound) (cookie : string) (token : jsval)
  : request :=
  V2.gesprov_request (base_url h ++ "/ges-api/v1/identificacao-cliente") "text/plain"
    cookie (printed h token)
    (V2.cliente_body (printed h (body_field req "cpf_cnpj"))
       (default_to (body_field req "enviar_contratos") (JStr "Todos"))
       (default_to (body_field req "enviar_servicos") (JStr "Todos"))).

(** The upstream call of the faturas route. *)
Definition faturas_call (h : host) (req : inbound) (cookie : string) (token : jsval)
  : request :=
  V2.gesprov_request (base_url h ++ "/ges-api/v1/faturas") "text/plain" cookie
    (printed h token)
    (V2.faturas_body (printed h (body_field req "cpf_cnpj")) (body_field req "situacao_titulo")
       (V2.rest_fields (body req ||| Some (JObj [])))).

(** The upstream call of the cliente route in the earlier listing. *)
Definition cliente_call_v1 (h : host) (req : inbound) (cookie : string) (token : jsval)
  : request :=
  V1.cliente_request
    (strip_trailing_slash (tpl (GESPROV_URL h)) ++ "/ges-api/v1/identificacao-cliente")
    cookie (printed h token)
    (V1.cliente_body (printed h (body_field req "cpf_cnpj"))
       (default_to (body_field req "enviar_contratos") (JStr "Todos"))
       (default_to (body_field req "enviar_servicos") (JStr "Todos"))).

(** The shapes in which the upstream is known to deliver the access token
    and the token type, in priority order. *)
Definition token_shapes (payload : jsval) : list jsval :=
  [payload ?. "data" ?. "access_token"; payload ?. "access_token"; payload ?. "token_acesso"].

Definition token_type_shapes (payload : jsval) : list jsval :=
  [payload ?. "data" ?. "token_type"; payload ?. "token_type"].

(** Token decoding in the words of the specification: no known field gives
    failure 502; otherwise success with the first match and a token type
    taken from the response, defaulting to "Bearer". *)
Definition decode_token (payload : json) (txt : string) : tokenResult :=
  match first_match (token_shapes (Some payload)) with
  | None => TokFail 502 (nullish (Some payload) (JStr txt))
  | Some access_token =>
      TokOk access_token
        match first_match (token_type_shapes (Some payload)) with
        | Some token_type => token_type
        | None => Some (JStr "Bearer")
        end
  end.

(** ** A concrete deployment *)

Module Demo.

Definition base : string := "http://gesprov.test".

(** A table standing for JSON.parse on the bodies used below. *)
Definition parse (s : string) : option json :=
  if String.eqb s "TOKEN" then
    Some (JObj [("data", JObj [("access_token", JStr "tok-1")])])
  else if String.eqb s "REJECTED" then
    Some (JObj [("erro", JStr "usuario_invalido")])
  else if String.eqb s "BLOCKED" then
    Some (JObj [("erro", JStr "cliente_bloqueado")])
  else if String.eqb s "CLIENTE" then
    Some (JObj [("nome", JStr "Maria")])
  else if String.eqb s "DOWN" then
    Some (JObj [("message", JStr "maintenance")])
  else None.

Definition encode (s : string) : string := "b64:" ++ s.

(** A table standing for the text of numbers beyond the safe integers. *)
Definition big (n : Z) : string :=
  if n =? 1000000000000000000000 then "1e+21" else "1e+300".

(** Every probe answers 200 with [probe_cookie] as its set-cookie header;
    the token endpoint answers [token], every other POST [business]. *)
Definition upstream (probe_cookie : option string) (token business : option response)
  : network :=
  fun _ rq =>
    match req_method rq with
    | GET => Some (mkResponse 200 probe_cookie "")
    | POST =>
        if String.eqb (req_url rq) (base ++ "/ges-api/v1/token") then token else business
    end.

Definition server (fixed : option string) (probe_cookie : option string)
  (token business : option response) : host :=
  mkHost (Some (base ++ "/")) (Some "id") (Some "secret") None fixed parse encode big
    (upstream probe_cookie token business).

(** The same deployment with no client credentials in the environment. *)
Definition server_without_credentials (probe_cookie : option string)
  (token business : option response) : host :=
  mkHost (Some (base ++ "/")) None None None None parse encode big
    (upstream probe_cookie token business).

Definition session_header : option string := Some "PHPSESSID=abc123; path=/".

Definition token_ok : option response := Some (mkResponse 200 None "TOKEN").

Definition req : inbound :=
  mkInbound None None (Some (JObj [("cpf_cnpj", JStr "123.456.789-01")])).

Definition cookie : string := "PHPSESSID=abc123".

Definition token : jsval := Some (JStr "tok-1").

(** The calls of a successful handshake: one probe, one token POST. *)
Definition handshake : trace :=
  [probe_request (base ++ "/");
   token_request (server None None None None) base cookie].

Fixpoint filler (n : nat) : string :=
  match n with
  | O => EmptyString
  | S n' => String "x" (filler n')
  end.

(** A text of [n] accented letters, two bytes and one code unit each. *)
Fixpoint accented (n : nat) : string :=
  match n with
  | O => EmptyString
  | S n' => "é" ++ accented n'
  end.

End Demo.

(** ** Further statement vocabulary *)

(** Every character of [s] satisfies [p]. *)
Fixpoint string_forall (p : ascii -> bool) (s : string) : bool :=
  match s with
  | EmptyString => true
  | String c rest => p c && string_forall p rest
  end.

Definition not_semicolon (c : ascii) : bool := negb (Ascii.eqb c ";").

(** The canonical form under which the [i] flag compares characters. *)
Fixpoint upcase_string (s : string) : string :=
  match s with
  | EmptyString => EmptyString
  | String c rest => String (upcase c) (upcase_string rest)
  end.

(** An occurrence of the session-cookie pattern in [s]: [pre] comes before
    it, [name] is the text PHPSESSID= in any letter case and [value] starts
    the run of characters other than the semicolon. *)
Definition occurrence (s pre name value rest : string) : Prop :=
  s = pre ++ name ++ value ++ rest
  /\ upcase_string name = "PHPSESSID="
  /\ (exists c value', value = String c value' /\ not_semicolon c = true).

(** What one probe finds: nothing when [fetch] rejects, when the answer has
    no set-cookie header or when the header does not match. *)
Definition yields (h : host) (tr : trace) (url : string) : option string :=
  match net h tr (probe_request url) with
  | Some r =>
      match set_cookie r with
      | Some setCookie => match_PHPSESSID setCookie
      | None => None
      end
  | None => None
  end.

(** The cookie of the configured fallback session id. *)
Definition fixed_cookie (h : host) : option string :=
  if truthy_str (GESPROV_PHPSESSID h)
  then Some ("PHPSESSID=" ++ tpl (GESPROV_PHPSESSID h))
  else None.

(** A status outside the 2xx range. *)
Definition not_2xx (st : Z) : Prop := st < 200 \/ 299 < st.

(** A deployment whose site root is unreachable: the first probe is
    rejected, the second has no cookie, the third sets one. *)
Module Outage.

Definition upstream : network :=
  fun _ rq =>
    match req_method rq with
    | GET =>
        if String.eqb (req_url rq) (Demo.base ++ "/") then None
        else if String.eqb (req_url rq) (Demo.base ++ "/ges-api/") then
          Some (mkResponse 404 None "")
        else Some (mkResponse 200 (Some "lang=pt; PhpSessId=v1-77; HttpOnly") "")
    | POST => None
    end.

Definition server (fixed : option string) : host :=
  mkHost (Some Demo.base) (Some "id") (Some "secret") (Some "k3y") fixed
    Demo.parse Demo.encode Demo.big upstream.

End Outage.

(** * Properties *)

(** ** The effect monad *)

Lemma bind_eq {A B : Type} (m : io A) (k : A -> io B) (tr : trace) :
  bind m k tr =
  match m tr with
  | (Returned a, tr') => k a tr'
  | (Thrown, tr') => (Thrown, tr')
  end.
Proof. reflexivity. Qed.

(** ** Strings and the cookie pattern *)

Lemma substring_length_le (n : nat) (s : string) :
  (String.length (substring 0 n s) <= n)%nat.
Proof.
  revert s; induction n as [|n IH]; intros [|c s]; simpl; try lia.
  specialize (IH s); lia.
Qed.

Lemma lone_high_surrogate_one_unit (c : ascii) (rest : string) :
  utf16_length (lone_high_surrogate c rest) = 1%nat.
Proof.
  unfold lone_high_surrogate.
  set (w := ((_ - 64) mod 1024)%nat).
  assert (Hw : (w < 1024)%nat) by (subst w; apply Nat.mod_upper_bound; discriminate).
  clearbody w.
  assert (Hd : (w / 64 < 16)%nat) by (apply Nat.Div0.div_lt_upper_bound; lia).
  assert (H1 : is_continuation (ascii_of_nat (160 + w / 64)) = true).
  { unfold is_continuation. rewrite nat_ascii_embedding by lia.
    apply andb_true_intro; split; [apply Nat.leb_le | apply Nat.ltb_lt]; lia. }
  assert (H2 : is_continuation (ascii_of_nat (128 + w mod 64)) = true).
  { assert (Hm : (w mod 64 < 64)%nat) by (apply Nat.mod_upper_bound; discriminate).
    unfold is_continuation. rewrite nat_ascii_embedding by lia.
    apply andb_true_intro; split; [apply Nat.leb_le | apply Nat.ltb_lt]; lia. }
  cbn [utf16_length]. rewrite H1, H2. reflexivity.
Qed.

(** The slice holds as many code units as asked for, or the whole text. *)
Lemma slice0_units (n : nat) (s : string) :
  utf16_length (slice0 n s) = Nat.min n (utf16_length s).
Proof.
  revert n; induction s as [|c s IH]; intros n; simpl.
  - now rewrite Nat.min_0_r.
  - destruct (is_continuation c) eqn:Ec.
    + simpl. rewrite Ec. apply IH.
    + destruct n as [|n]; [reflexivity|].
      destruct (is_lead4 c) eqn:E4.
      * destruct n as [|n].
        -- rewrite lone_high_surrogate_one_unit. reflexivity.
        -- simpl. rewrite Ec, E4, IH. reflexivity.
      * simpl. rewrite Ec, E4, IH. reflexivity.
Qed.

Lemma slice0_length_le (n : nat) (s : string) : (utf16_length (slice0 n s) <= n)%nat.
Proof. rewrite slice0_units. apply Nat.le_min_l. Qed.

(** A text of at most [n] code units is its own slice. *)
Lemma slice0_short (n : nat) (s : string) :
  (utf16_length s <= n)%nat -> slice0 n s = s.
Proof.
  revert n; induction s as [|c s IH]; intros n; simpl; [reflexivity|].
  destruct (is_continuation c) eqn:Ec.
  - intros H. now rewrite IH.
  - destruct n as [|n].
    + destruct (is_lead4 c); simpl; lia.
    + destruct (is_lead4 c).
      * destruct n as [|n]; [simpl; lia|]. intros H. rewrite IH by (simpl in H; lia). reflexivity.
      * intros H. rewrite IH by (simpl in H; lia). reflexivity.
Qed.

(** In a text of the basic plane (no four-byte sequence) the slice is a
    prefix of the text. *)
Lemma slice0_prefix (n : nat) (s : string) :
  (forall c, is_lead4 c = true ->
             forall pre post, s <> pre ++ String c post) ->
  exists rest, s = slice0 n s ++ rest.
Proof.
  revert n; induction s as [|c s IH]; intros n Hbmp; simpl.
  - now exists "".
  - assert (Hs : forall c0, is_lead4 c0 = true ->
                            forall pre post, s <> pre ++ String c0 post).
    { intros c0 Hc0 pre post ->. now apply (Hbmp c0 Hc0 (String c pre) post). }
    destruct (is_continuation c).
    + destruct (IH n Hs) as [rest Hrest]. exists rest. simpl. now rewrite <- Hrest.
    + destruct n as [|n]; [now exists (String c s)|].
      destruct (is_lead4 c) eqn:E4.
      * exfalso. now apply (Hbmp c E4 "" s).
      * destruct (IH n Hs) as [rest Hrest]. exists rest. simpl. now rewrite <- Hrest.
Qed.

(** On plain ASCII text the slice is the first [n] bytes. *)
Lemma slice0_ascii (n : nat) (s : string) :
  string_forall (fun c => (nat_of_ascii c <? 128)%nat) s = true ->
  slice0 n s = substring 0 n s.
Proof.
  revert n; induction s as [|c s IH]; intros n; simpl.
  - now destruct n.
  - intros H. apply andb_prop in H. destruct H as [Hc Hs].
    apply Nat.ltb_lt in Hc.
    assert (Ec : is_continuation c = false).
    { unfold is_continuation. apply andb_false_iff. left. apply Nat.leb_gt. exact Hc. }
    assert (E4 : is_lead4 c = false) by (unfold is_lead4; apply Nat.leb_gt; lia).
    rewrite Ec. destruct n as [|n]; [reflexivity|]. rewrite E4, (IH n Hs). reflexivity.
Qed.

Example utf16_length_accented : utf16_length "aéb" = 3%nat.
Proof. reflexivity. Qed.

Example utf16_length_outside_basic_plane : utf16_length "😀" = 2%nat.
Proof. reflexivity. Qed.

Example slice0_accented : slice0 2 "aéb" = "aé".
Proof. reflexivity. Qed.

Example slice0_keeps_pair : slice0 2 "😀x" = "😀" /\ slice0 3 "😀x" = "😀x".
Proof. split; reflexivity. Qed.

(** U+1F600 is the pair D83D DE00; cut after one unit, D83D is left. *)
Example slice0_splits_pair :
  slice0 1 "😀x" =
  String (ascii_of_nat 237) (String (ascii_of_nat 160) (String (ascii_of_nat 189) "")).
Proof. reflexivity. Qed.

Example js_String_text_and_safe_number :
  js_String Demo.big (JStr "123.456.789-01") = Some "123.456.789-01"
  /\ js_String Demo.big (JNum 12345678901) = Some "12345678901"
  /\ js_String Demo.big (JNum (-7)) = Some "-7".
Proof. repeat split. Qed.

Example js_String_beyond_safe_integers :
  js_String Demo.big (JNum 1000000000000000000000) = Some "1e+21".
Proof. reflexivity. Qed.

Example js_String_array :
  js_String Demo.big (JArr [JNum 1; JNull; JArr [JStr "a"; JBool true]; JObj []])
  = Some "1,,a,true,[object Object]".
Proof. reflexivity. Qed.

Example js_String_own_toString_throws :
  js_String Demo.big (JObj [("toString", JNum 1)]) = None
  /\ js_String Demo.big (JArr [JStr "a"; JObj [("toString", JNull)]]) = None
  /\ js_String Demo.big (JObj [("valueOf", JNum 1)]) = Some "[object Object]".
Proof. repeat split. Qed.

Lemma append_nonempty_r (a b : string) : b <> "" -> a ++ b <> "".
Proof.
  intros Hb; destruct a as [|c a]; simpl; [exact Hb | discriminate].
Qed.

Lemma match_here_nonempty (s m : string) : match_here s = Some m -> m <> "".
Proof.
  unfold match_here.
  destruct (skip_prefix_ci "PHPSESSID=" s) as [rest|]; [|discriminate].
  destruct (take_non_semi rest) as [|c v] eqn:E; [discriminate|].
  intros [= <-]. apply append_nonempty_r. discriminate.
Qed.

Lemma match_PHPSESSID_eq (s : string) :
  match_PHPSESSID s =
  match match_here s with
  | Some m => Some m
  | None =>
      match s with
      | EmptyString => None
      | String _ rest => match_PHPSESSID rest
      end
  end.
Proof. destruct s; reflexivity. Qed.

(** Whatever the pattern matches is a non-empty string, hence truthy. *)
Lemma match_PHPSESSID_nonempty (s m : string) : match_PHPSESSID s = Some m -> m <> "".
Proof.
  induction s as [|c s IH]; rewrite match_PHPSESSID_eq.
  - destruct (match_here "") eqn:E; [|discriminate].
    intros [= <-]. eapply match_here_nonempty; eauto.
  - destruct (match_here (String c s)) eqn:E.
    + intros [= <-]. eapply match_here_nonempty; eauto.
    + exact IH.
Qed.

Lemma as_truthy_nonempty (s : string) : s <> "" -> as_truthy (Some s) = Some s.
Proof.
  intros Hs; unfold as_truthy.
  destruct (String.eqb_spec s ""); [contradiction | reflexivity].
Qed.

Lemma truthy_str_nonempty (s : string) : s <> "" -> truthy_str (Some s) = true.
Proof.
  intros Hs; unfold truthy_str.
  destruct (String.eqb_spec s ""); [contradiction | reflexivity].
Qed.

Lemma as_truthy_falsy (o : option string) : truthy_str o = false -> as_truthy o = None.
Proof.
  destruct o as [s|]; simpl; [|reflexivity].
  destruct (String.eqb s ""); [reflexivity | discriminate].
Qed.

(** ** Session Opener *)

(** The probe loop swallows every rejection: it always returns. *)
Lemma probe_returns (h : host) (urls : list string) (tr : trace) :
  exists o tr', probe h urls tr = (Returned o, tr').
Proof.
  revert tr; induction urls as [|url rest IH]; intros tr; simpl.
  - eexists _, _; reflexivity.
  - unfold bind, try_catch, fetch, ret.
    destruct (net h tr (probe_request url)) as [r|].
    + destruct (match set_cookie r with Some c => match_PHPSESSID c | None => None end).
      * eexists _, _; reflexivity.
      * apply IH.
    + apply IH.
Qed.

(** When no candidate yields a cookie, every candidate was tried, in
    order, and nothing else was sent. *)
Lemma probe_none_trace (h : host) (urls : list string) (tr tr' : trace) :
  probe h urls tr = (Returned None, tr') ->
  tr' = (tr ++ map probe_request urls)%list.
Proof.
  revert tr; induction urls as [|url rest IH]; intros tr; simpl.
  - unfold ret; intros [= <-]. now rewrite app_nil_r.
  - unfold bind, try_catch, fetch, ret.
    destruct (net h tr (probe_request url)) as [r|].
    + destruct (match set_cookie r with Some c => match_PHPSESSID c | None => None end).
      * discriminate.
      * intros H; apply IH in H. now rewrite <- app_assoc in H.
    + intros H; apply IH in H. now rewrite <- app_assoc in H.
Qed.

(** A cookie returned by the probe loop is never the empty string. *)
Lemma probe_some_nonempty (h : host) (urls : list string) (tr tr' : trace) (sid : string) :
  probe h urls tr = (Returned (Some sid), tr') -> sid <> "".
Proof.
  revert tr; induction urls as [|url rest IH]; intros tr; simpl.
  - unfold ret; discriminate.
  - unfold bind, try_catch, fetch, ret.
    destruct (net h tr (probe_request url)) as [r|].
    + destruct (set_cookie r) as [c|].
      * destruct (match_PHPSESSID c) as [m|] eqn:E.
        -- intros [= <- _]. eapply match_PHPSESSID_nonempty; eauto.
        -- apply IH.
      * apply IH.
    + apply IH.
Qed.

(** Only GET requests are added by the probe loop. *)
Lemma probe_only_gets (h : host) (urls : list string) (tr tr' : trace) (o : option string) :
  probe h urls tr = (Returned o, tr') ->
  exists sent, tr' = (tr ++ sent)%list /\ Forall (fun rq => req_method rq = GET) sent.
Proof.
  revert tr o; induction urls as [|url rest IH]; intros tr o; simpl.
  - unfold ret; intros [= _ <-]. exists []. split; [now rewrite app_nil_r | constructor].
  - unfold bind, try_catch, fetch, ret.
    assert (Hstep : forall o',
      probe h rest (tr ++ [probe_request url])%list = (Returned o', tr') ->
      exists sent, tr' = (tr ++ sent)%list /\ Forall (fun rq => req_method rq = GET) sent).
    { intros o' H. apply IH in H. destruct H as (sent & -> & Hs).
      exists (probe_request url :: sent). split.
      - now rewrite <- app_assoc.
      - constructor; [reflexivity | exact Hs]. }
    destruct (net h tr (probe_request url)) as [r|].
    + destruct (match set_cookie r with Some c => match_PHPSESSID c | None => None end).
      * intros [= _ <-]. exists [probe_request url]. split; [reflexivity|].
        constructor; [reflexivity | constructor].
      * apply Hstep.
    + apply Hstep.
Qed.

(** The probe loop reads nothing of the host but its network. *)
Lemma probe_with_PHPSESSID (fixed : option string) (h : host) (urls : list string) :
  probe (with_PHPSESSID fixed h) urls = probe h urls.
Proof.
  induction urls as [|url rest IH]; simpl; [reflexivity|].
  now rewrite IH.
Qed.

(** ** Token Exchanger *)

(** [first_match] returns a usable candidate, and every candidate before it
    is unusable. *)
Lemma first_match_spec (l : list jsval) (v : jsval) :
  first_match l = Some v ->
  truthy v = true /\
  exists before after,
    l = (before ++ v :: after)%list /\ Forall (fun c => truthy c = false) before.
Proof.
  unfold first_match. induction l as [|c l IH]; simpl; [discriminate|].
  destruct (truthy c) eqn:E.
  - intros [= <-]. split; [exact E|]. exists [], l. split; [reflexivity | constructor].
  - intros H. destruct (IH H) as (Hv & before & after & -> & Hb).
    split; [exact Hv|]. exists (c :: before), after. split; [reflexivity|].
    constructor; assumption.
Qed.

Lemma first_match_none (l : list jsval) :
  first_match l = None <-> Forall (fun c => truthy c = false) l.
Proof.
  unfold first_match. induction l as [|c l IH]; simpl.
  - split; [constructor | reflexivity].
  - destruct (truthy c) eqn:E.
    + split; [discriminate|]. intros H. inversion H; subst. congruence.
    + rewrite IH. split; [now constructor | now inversion 1].
Qed.

(** The [||] chain of the source against the ordered list of shapes. *)
Lemma js_or3_first_match (a b c : jsval) :
  if truthy (a ||| b ||| c)
  then first_match [a; b; c] = Some (a ||| b ||| c)
  else first_match [a; b; c] = None.
Proof.
  unfold first_match, js_or; simpl.
  destruct (truthy a) eqn:Ea; [rewrite Ea; now rewrite Ea|].
  destruct (truthy b) eqn:Eb; [rewrite Eb; reflexivity|].
  destruct (truthy c) eqn:Ec; reflexivity.
Qed.

Lemma js_or_default_first_match (a b : jsval) (d : json) :
  truthy (Some d) = true ->
  a ||| b ||| Some d =
  match first_match [a; b] with
  | Some v => v
  | None => Some d
  end.
Proof.
  intros Hd. unfold first_match, js_or; simpl.
  destruct (truthy a) eqn:Ea; [now rewrite Ea|].
  destruct (truthy b) eqn:Eb; reflexivity.
Qed.

Section TokenExchange.

Variables (h : host) (baseUrl cookie : string) (tr : trace) (r : response).
Hypothesis Hfetch : net h tr (token_request h baseUrl cookie) = Some r.

Local Abbreviation payload := (parse_or_null h (text r)).
Local Abbreviation sent := (tr ++ [token_request h baseUrl cookie])%list.

Ltac run_getToken :=
  unfold V1.getToken, V2.getToken, bind, fetch, ret; rewrite Hfetch; cbv beta iota zeta.

(** A non-2xx answer is classified first: the upstream status is
    forwarded, whatever the body says. *)
Lemma getToken_transport_failure :
  ok r = false ->
  V1.getToken h baseUrl cookie tr = (Returned (TokFail (status r) (JStr (text r))), sent)
  /\ V2.getToken h baseUrl cookie tr =
       (Returned (TokFail (status r) (nullish (Some payload) (JStr (text r)))), sent).
Proof.
  intros Hok; split; run_getToken; rewrite Hok; reflexivity.
Qed.

Lemma getToken_business_error :
  ok r = true ->
  truthy (Some payload ?. "erro") = true ->
  V1.getToken h baseUrl cookie tr = (Returned (TokFail 401 payload), sent)
  /\ V2.getToken h baseUrl cookie tr = (Returned (TokFail 401 payload), sent).
Proof.
  intros Hok Herro; split; run_getToken; rewrite Hok, Herro; reflexivity.
Qed.

Lemma getToken_decodes :
  ok r = true ->
  truthy (Some payload ?. "erro") = false ->
  V1.getToken h baseUrl cookie tr = (Returned (decode_token payload (text r)), sent)
  /\ V2.getToken h baseUrl cookie tr = (Returned (decode_token payload (text r)), sent).
Proof.
  intros Hok Herro.
  assert (Hdec :
    (if negb (truthy (Some payload ?. "data" ?. "access_token"
                        ||| Some payload ?. "access_token"
                        ||| Some payload ?. "token_acesso"))
     then ret (TokFail 502 (nullish (Some payload) (JStr (text r))))
     else ret (TokOk (Some payload ?. "data" ?. "access_token"
                        ||| Some payload ?. "access_token"
                        ||| Some payload ?. "token_acesso")
                 (Some payload ?. "data" ?. "token_type"
                    ||| Some payload ?. "token_type"
                    ||| Some (JStr "Bearer")))) sent
    = (Returned (decode_token payload (text r)), sent)).
  { unfold decode_token, token_shapes, token_type_shapes.
    rewrite (js_or_default_first_match _ _ (JStr "Bearer") eq_refl).
    pose proof (js_or3_first_match (Some payload ?. "data" ?. "access_token")
                  (Some payload ?. "access_token") (Some payload ?. "token_acesso")) as H3.
    destruct (truthy _) in H3 |- *; rewrite H3; reflexivity. }
  split; run_getToken; rewrite Hok, Herro; exact Hdec.
Qed.

End TokenExchange.

(** ** Auth Cycle Coordinator *)

(** The later listing rejects a configuration without base URL or without
    credentials before anything is sent. *)
Lemma V2_authCycle_config_error (h : host) (tr : trace) :
  base_url h = ""
  \/ truthy_str (GESPROV_CLIENT_ID h) = false
  \/ truthy_str (GESPROV_CLIENT_SECRET h) = false ->
  exists error,
    V2.authCycle h tr = (Returned (V2.AuthFail 500 error undefined), tr).
Proof.
  unfold V2.authCycle, base_url.
  destruct (String.eqb_spec (strip_trailing_slash (or_empty (GESPROV_URL h))) "") as [E|E].
  - intros _. eexists; reflexivity.
  - intros [Hb | [Hid | Hsec]]; [contradiction | |].
    + rewrite Hid. eexists; reflexivity.
    + rewrite Hsec, orb_true_r. eexists; reflexivity.
Qed.

(** The earlier listing guards the base URL only. *)
Lemma V1_authCycle_no_base_url (h : host) (tr : trace) :
  base_url h = "" ->
  V1.authCycle h tr = (Returned (V1.AuthFail 500 "GESPROV_URL not set" undefined), tr).
Proof.
  unfold V1.authCycle, base_url. intros ->. reflexivity.
Qed.

Section AuthCycle.

Variables (h : host) (tr tr' : trace).
Hypothesis Hbase : base_url h <> "".

Lemma base_url_eqb : String.eqb (strip_trailing_slash (or_empty (GESPROV_URL h))) "" = false.
Proof. apply String.eqb_neq. exact Hbase. Qed.

Ltac enter_authCycle :=
  unfold V1.authCycle, V2.authCycle; rewrite base_url_eqb;
  fold (base_url h); unfold bind.

(** No cookie from the probes and none configured: 502 and the trace is
    the one the Session Opener left. *)
Lemma authCycle_no_session :
  openSession h (base_url h) tr = (Returned None, tr') ->
  truthy_str (GESPROV_PHPSESSID h) = false ->
  V1.authCycle h tr =
    (Returned (V1.AuthFail 502 "Could not obtain PHPSESSID (session required)" undefined), tr')
  /\ (truthy_str (GESPROV_CLIENT_ID h) = true ->
      truthy_str (GESPROV_CLIENT_SECRET h) = true ->
      V2.authCycle h tr =
        (Returned (V2.AuthFail 502 "Could not obtain PHPSESSID (session required)" undefined), tr')).
Proof.
  intros Hopen Hfixed; split; [|intros Hid Hsec]; enter_authCycle.
  - rewrite Hopen. cbn [as_truthy]. rewrite Hfixed. reflexivity.
  - rewrite Hid, Hsec. cbn [negb orb]. rewrite Hopen.
    cbn [truthy_str]. rewrite Hfixed. reflexivity.
Qed.

(** A probed cookie goes to the token exchange; the configured fallback
    is not consulted. *)
Lemma V1_authCycle_probed (sid : string) :
  openSession h (base_url h) tr = (Returned (Some sid), tr') ->
  V1.authCycle h tr =
    match V1.getToken h (base_url h) sid tr' with
    | (Returned (TokFail st raw), tr2) =>
        (Returned (V1.AuthFail st "Token failed" (Some raw)), tr2)
    | (Returned (TokOk access_token _), tr2) => (Returned (V1.AuthOk sid access_token), tr2)
    | (Thrown, tr2) => (Thrown, tr2)
    end.
Proof.
  intros Hopen. enter_authCycle. rewrite Hopen.
  rewrite (as_truthy_nonempty sid) by (eapply probe_some_nonempty; exact Hopen).
  destruct (V1.getToken h (base_url h) sid tr') as [[[st raw|a t]|] tr2]; reflexivity.
Qed.

Lemma V2_authCycle_probed (sid : string) :
  truthy_str (GESPROV_CLIENT_ID h) = true ->
  truthy_str (GESPROV_CLIENT_SECRET h) = true ->
  openSession h (base_url h) tr = (Returned (Some sid), tr') ->
  V2.authCycle h tr =
    match V2.getToken h (base_url h) sid tr' with
    | (Returned (TokFail st raw), tr2) =>
        (Returned (V2.AuthFail st "Token failed" (Some raw)), tr2)
    | (Returned (TokOk access_token token_type), tr2) =>
        (Returned (V2.AuthOk sid access_token token_type), tr2)
    | (Thrown, tr2) => (Thrown, tr2)
    end.
Proof.
  intros Hid Hsec Hopen. enter_authCycle. rewrite Hid, Hsec. cbn [negb orb]. rewrite Hopen.
  assert (Hsid : sid <> "") by (eapply probe_some_nonempty; exact Hopen).
  rewrite (truthy_str_nonempty sid Hsid), (as_truthy_nonempty sid Hsid).
  destruct (V2.getToken h (base_url h) sid tr') as [[[st raw|a t]|] tr2]; reflexivity.
Qed.

End AuthCycle.

(** The token exchange always records exactly its one POST. *)
Lemma getToken_trace (h : host) (baseUrl cookie : string) (tr : trace) :
  snd (V1.getToken h baseUrl cookie tr) = (tr ++ [token_request h baseUrl cookie])%list
  /\ snd (V2.getToken h baseUrl cookie tr) = (tr ++ [token_request h baseUrl cookie])%list.
Proof.
  unfold V1.getToken, V2.getToken, bind, fetch, ret.
  destruct (net h tr (token_request h baseUrl cookie)) as [r|]; [|split; reflexivity].
  cbv beta iota zeta.
  split.
  - destruct (negb (ok r)); [reflexivity|].
    destruct (truthy _); [reflexivity|].
    destruct (negb _); reflexivity.
  - destruct (negb (ok r)); [reflexivity|].
    destruct (truthy _); [reflexivity|].
    destruct (negb _); reflexivity.
Qed.

(** A successful token exchange carries a usable token and token type. *)
Lemma getToken_ok_truthy (h : host) (baseUrl cookie : string) (tr tr2 : trace)
  (access_token token_type : jsval) :
  V1.getToken h baseUrl cookie tr = (Returned (TokOk access_token token_type), tr2)
  \/ V2.getToken h baseUrl cookie tr = (Returned (TokOk access_token token_type), tr2) ->
  truthy access_token = true /\ truthy token_type = true.
Proof.
  assert (Htt : forall a b, truthy (a ||| b ||| Some (JStr "Bearer")) = true).
  { intros a b. unfold js_or. destruct (truthy a) eqn:Ea; [now rewrite Ea|].
    destruct (truthy b) eqn:Eb; [exact Eb | reflexivity]. }
  unfold V1.getToken, V2.getToken, bind, fetch, ret.
  destruct (net h tr (token_request h baseUrl cookie)) as [r|];
    [|intros [H|H]; discriminate].
  cbv beta iota zeta.
  intros [H|H]; revert H;
    (destruct (negb (ok r)); [discriminate|]);
    (destruct (truthy (Some (parse_or_null h (text r)) ?. "erro")); [discriminate|]);
    match goal with |- context [negb (truthy ?a)] => destruct (truthy a) eqn:Ea end;
    cbn [negb]; try discriminate;
    intros [= <- <- _]; (split; [exact Ea | apply Htt]).
Qed.

(** Where the later listing authenticates, the earlier one does too, with
    the same cookie and token. *)
Lemma getToken_agree_on_success (h : host) (baseUrl cookie : string) (tr tr2 : trace)
  (access_token token_type : jsval) :
  V2.getToken h baseUrl cookie tr = (Returned (TokOk access_token token_type), tr2) ->
  V1.getToken h baseUrl cookie tr = (Returned (TokOk access_token token_type), tr2).
Proof.
  unfold V1.getToken, V2.getToken, bind, fetch, ret.
  destruct (net h tr (token_request h baseUrl cookie)) as [r|]; [|discriminate].
  cbv beta iota zeta.
  destruct (negb (ok r)); [discriminate|].
  destruct (truthy (Some (parse_or_null h (text r)) ?. "erro")); [discriminate|].
  exact (fun H => H).
Qed.

Lemma authCycle_agree_on_success (h : host) (tr tr1 : trace) (cookie : string)
  (token token_type : jsval) :
  V2.authCycle h tr = (Returned (V2.AuthOk cookie token token_type), tr1) ->
  V1.authCycle h tr = (Returned (V1.AuthOk cookie token), tr1).
Proof.
  unfold V1.authCycle, V2.authCycle.
  destruct (String.eqb (strip_trailing_slash (or_empty (GESPROV_URL h))) ""); [discriminate|].
  destruct (negb (truthy_str (GESPROV_CLIENT_ID h)) || negb (truthy_str (GESPROV_CLIENT_SECRET h)));
    [discriminate|].
  destruct (probe_returns h (tries (strip_trailing_slash (or_empty (GESPROV_URL h)))) tr)
    as (sid & tr' & Hopen).
  do 2 rewrite bind_eq. unfold openSession. rewrite Hopen. cbv beta iota zeta.
  assert (Hstep : forall c,
    (tok <- V2.getToken h (strip_trailing_slash (or_empty (GESPROV_URL h))) c ;;
     match tok with
     | TokFail st raw => ret (V2.AuthFail st "Token failed" (Some raw))
     | TokOk a t => ret (V2.AuthOk c a t)
     end) tr' = (Returned (V2.AuthOk cookie token token_type), tr1) ->
    (tok <- V1.getToken h (strip_trailing_slash (or_empty (GESPROV_URL h))) c ;;
     match tok with
     | TokFail st raw => ret (V1.AuthFail st "Token failed" (Some raw))
     | TokOk a _ => ret (V1.AuthOk c a)
     end) tr' = (Returned (V1.AuthOk cookie token), tr1)).
  { intros c. rewrite !bind_eq.
    destruct (V2.getToken h _ c tr') as [[[st raw|a t]|] tr2] eqn:E; try discriminate.
    unfold ret. intros [= <- <- <- <-].
    now rewrite (getToken_agree_on_success _ _ _ _ _ _ _ E). }
  destruct sid as [sid|]; cbn [truthy_str as_truthy].
  - destruct (String.eqb sid "") eqn:E; cbn [negb]; cbn [as_truthy]; rewrite ?E;
      [|apply Hstep].
    destruct (truthy_str (GESPROV_PHPSESSID h)); [|discriminate].
    destruct (as_truthy (Some ("PHPSESSID=" ++ tpl (GESPROV_PHPSESSID h)))) as [c|];
      [apply Hstep | discriminate].
  - destruct (truthy_str (GESPROV_PHPSESSID h)); [|discriminate].
    destruct (as_truthy (Some ("PHPSESSID=" ++ tpl (GESPROV_PHPSESSID h)))) as [c|];
      [apply Hstep | discriminate].
Qed.

(** ** Upstream Request Dispatcher *)

Lemma str_or_empty (s : string) : str_or s "" = s.
Proof. unfold str_or. destruct (String.eqb_spec s ""); congruence. Qed.

Lemma prints_printed (h : host) (v : jsval) :
  prints h v = true -> String_of h v = Some (printed h v).
Proof. unfold prints, printed. destruct (String_of h v); [reflexivity | discriminate]. Qed.

Lemma not_prints (h : host) (v : jsval) : prints h v = false -> String_of h v = None.
Proof. unfold prints. destruct (String_of h v); [discriminate | reflexivity]. Qed.

Lemma bind_or_throw_some {A B : Type} (a : A) (k : A -> io B) (tr : trace) :
  bind (or_throw (Some a)) k tr = k a tr.
Proof. reflexivity. Qed.

Lemma bind_or_throw_none {A B : Type} (k : A -> io B) (tr : trace) :
  bind (or_throw None) k tr = (Thrown, tr).
Proof. reflexivity. Qed.

Lemma gesprovPost_run (h : host) (endpoint cookie : string) (token bodyObj : jsval)
  (contentType : string) (tr : trace) (r : response) :
  prints h token = true ->
  net h tr
    (V2.gesprov_request
       (base_url h ++ (if starts_with_slash endpoint then "" else "/") ++ endpoint)
       contentType cookie (printed h token) (nullish bodyObj (JObj []))) = Some r ->
  V2.gesprovPost h endpoint cookie token bodyObj contentType tr =
  (Returned (r, text r, parse_or_null h (text r)),
   (tr ++ [V2.gesprov_request
             (base_url h ++ (if starts_with_slash endpoint then "" else "/") ++ endpoint)
             contentType cookie (printed h token) (nullish bodyObj (JObj []))])%list).
Proof.
  intros Htoken Hnet. unfold V2.gesprovPost. fold (base_url h).
  rewrite (prints_printed h token Htoken), bind_or_throw_some.
  unfold bind, fetch, ret.
  destruct (String.eqb contentType "application/json"); rewrite Hnet; reflexivity.
Qed.

(** ** The business routes *)

Section Routes.

Variables (h : host) (req : inbound) (tr tr1 : trace).
Variables (cookie : string) (token : jsval) (r : response).
Hypothesis Hkey : requireKey h req = KeyOk.
Hypothesis Hcpf : truthy (body_field req "cpf_cnpj") = true.
Hypothesis Hprint : prints h (body_field req "cpf_cnpj") = true.
Hypothesis Htoken : prints h token = true.

Local Abbreviation payload := (parse_or_null h (text r)).
Local Abbreviation erro := (Some (parse_or_null h (text r)) ?. "erro").

Section Later.

Variable token_type : jsval.
Hypothesis Hauth : V2.authCycle h tr = (Returned (V2.AuthOk cookie token token_type), tr1).

Ltac enter_route Hnet :=
  pose proof (prints_printed _ _ Hprint) as Hcpf_text;
  unfold V2.post_gesprov_cliente, V2.post_gesprov_faturas; rewrite Hkey;
  unfold try_catch; cbv zeta;
  unfold body_field in Hcpf, Hcpf_text; rewrite Hcpf; cbn [negb];
  rewrite bind_eq, Hauth; cbv beta iota;
  rewrite Hcpf_text, bind_or_throw_some;
  rewrite bind_eq; erewrite gesprovPost_run by first [exact Htoken | exact Hnet];
  cbv beta iota.

Section Cliente.

Hypothesis Hnet : net h tr1 (cliente_call h req cookie token) = Some r.

Local Abbreviation sent := (tr1 ++ [cliente_call h req cookie token])%list.

Lemma cliente_business_error :
  truthy erro = true ->
  V2.post_gesprov_cliente h req tr = (Returned (mkReply (erro_status erro) payload), sent).
Proof. intros He. enter_route Hnet. rewrite He. reflexivity. Qed.

Lemma cliente_transport_failure :
  truthy erro = false ->
  ok r = false ->
  V2.post_gesprov_cliente h req tr =
  (Returned
     (mkReply 502
        (JObj [("error", JStr ("Gesprov error " ++ string_of_Z (status r)));
               ("raw", JStr (slice0 1200 (text r)))])), sent).
Proof.
  intros He Hok. enter_route Hnet. rewrite He, Hok, str_or_empty. reflexivity.
Qed.

Lemma cliente_passthrough :
  truthy erro = false ->
  ok r = true ->
  V2.post_gesprov_cliente h req tr =
  (Returned (mkReply 200 (nullish (Some payload) (JObj [("raw", JStr (text r))]))), sent).
Proof. intros He Hok. enter_route Hnet. rewrite He, Hok. reflexivity. Qed.

End Cliente.

Section Faturas.

Hypothesis Hnet : net h tr1 (faturas_call h req cookie token) = Some r.

Local Abbreviation sent := (tr1 ++ [faturas_call h req cookie token])%list.

Lemma faturas_business_error :
  truthy erro = true ->
  V2.post_gesprov_faturas h req tr = (Returned (mkReply (erro_status erro) payload), sent).
Proof. intros He. enter_route Hnet. rewrite He. reflexivity. Qed.

Lemma faturas_transport_failure :
  truthy erro = false ->
  ok r = false ->
  V2.post_gesprov_faturas h req tr =
  (Returned
     (mkReply (status r)
        (JObj [("error", JStr "Erro ao buscar faturas no Gesprov.");
               ("details",
                nullish (Some payload) (JObj [("raw", JStr (slice0 1200 (text r)))]))])),
   sent).
Proof.
  intros He Hok. enter_route Hnet. rewrite He, Hok, str_or_empty. reflexivity.
Qed.

Lemma faturas_success :
  truthy erro = false ->
  ok r = true ->
  V2.post_gesprov_faturas h req tr =
  (Returned
     (mkReply 200
        (obj [("success", Some (JBool true));
              ("faturas",
               Some payload ?. "titulos" ||| Some payload ?. "faturas"
                 ||| Some payload ?. "data" ||| Some payload)])), sent).
Proof. intros He Hok. enter_route Hnet. rewrite He, Hok. reflexivity. Qed.

End Faturas.

End Later.

Section Earlier.

Hypothesis Hauth : V1.authCycle h tr = (Returned (V1.AuthOk cookie token), tr1).
Hypothesis Hnet : net h tr1 (cliente_call_v1 h req cookie token) = Some r.

Local Abbreviation sent := (tr1 ++ [cliente_call_v1 h req cookie token])%list.

Lemma V1_authenticated_has_url : exists u, GESPROV_URL h = Some u.
Proof.
  destruct (GESPROV_URL h) as [u|] eqn:EU; [now exists u|].
  unfold V1.authCycle in Hauth. rewrite EU in Hauth. discriminate.
Qed.

Ltac enter_route_v1 :=
  destruct V1_authenticated_has_url as [u EU];
  pose proof (prints_printed _ _ Hprint) as Hcpf_text;
  unfold cliente_call_v1 in *; rewrite EU in Hnet |- *; cbn [tpl] in Hnet |- *;
  unfold V1.post_gesprov_cliente; rewrite Hkey; cbv zeta;
  unfold body_field in Hcpf, Hcpf_text; rewrite Hcpf; cbn [negb];
  rewrite bind_eq, Hauth; cbv beta iota; rewrite EU;
  rewrite Hcpf_text, bind_or_throw_some;
  rewrite (prints_printed _ _ Htoken), bind_or_throw_some;
  rewrite bind_eq; unfold fetch at 1; unfold body_field in Hnet; rewrite Hnet; cbv beta iota.

Lemma V1_cliente_business_error :
  truthy erro = true ->
  V1.post_gesprov_cliente h req tr = (Returned (mkReply (erro_status erro) payload), sent).
Proof. intros He. enter_route_v1. rewrite He. reflexivity. Qed.

Lemma V1_cliente_transport_failure :
  truthy erro = false ->
  ok r = false ->
  V1.post_gesprov_cliente h req tr =
  (Returned
     (mkReply 502
        (JObj [("error", JStr ("Gesprov error " ++ string_of_Z (status r)));
               ("raw", JStr (slice0 800 (text r)))])), sent).
Proof. intros He Hok. enter_route_v1. rewrite He, Hok. reflexivity. Qed.

Lemma V1_cliente_passthrough :
  truthy erro = false ->
  ok r = true ->
  V1.post_gesprov_cliente h req tr =
  (Returned (mkReply 200 (nullish (Some payload) (JObj [("raw", JStr (text r))]))), sent).
Proof. intros He Hok. enter_route_v1. rewrite He, Hok. reflexivity. Qed.

End Earlier.

End Routes.

(** * The claims *)

(** C1 (as amended).  A token-exchange response whose parsed body has a
    truthy [erro] makes [getToken] fail with status 401 and the parsed body
    as detail when the transport status is 2xx; when it is not, the
    transport check comes first and the failure carries the upstream
    status.  Both listings. *)
Theorem getToken_business_error_401 :
  forall (h : host) (baseUrl cookie : string) (tr : trace) (r : response),
    net h tr (token_request h baseUrl cookie) = Some r ->
    truthy (Some (parse_or_null h (text r)) ?. "erro") = true ->
    (ok r = true ->
     V1.getToken h baseUrl cookie tr =
       (Returned (TokFail 401 (parse_or_null h (text r))),
        (tr ++ [token_request h baseUrl cookie])%list)
     /\ V2.getToken h baseUrl cookie tr =
       (Returned (TokFail 401 (parse_or_null h (text r))),
        (tr ++ [token_request h baseUrl cookie])%list))
    /\ (ok r = false ->
        V1.getToken h baseUrl cookie tr =
          (Returned (TokFail (status r) (JStr (text r))),
           (tr ++ [token_request h baseUrl cookie])%list)
        /\ V2.getToken h baseUrl cookie tr =
          (Returned (TokFail (status r) (parse_or_null h (text r))),
           (tr ++ [token_request h baseUrl cookie])%list)).
Proof.
  intros h baseUrl cookie tr r Hnet Herro. split; intros Hok.
  - exact (getToken_business_error h baseUrl cookie tr r Hnet Hok Herro).
  - destruct (getToken_transport_failure h baseUrl cookie tr r Hnet Hok) as [H1 H2].
    split; [exact H1|]. rewrite H2.
    destruct (parse_or_null h (text r)); try reflexivity. discriminate.
Qed.

Lemma getToken_business_error_401_witness :
  let h := Demo.server None Demo.session_header (Some (mkResponse 200 None "REJECTED")) None in
  ok (mkResponse 200 None "REJECTED") = true
  /\ V2.getToken h Demo.base Demo.cookie [] =
       (Returned (TokFail 401 (JObj [("erro", JStr "usuario_invalido")])),
        [token_request h Demo.base Demo.cookie]).
Proof.
  intros h. split; [reflexivity|].
  apply (getToken_business_error_401 h Demo.base Demo.cookie []
           (mkResponse 200 None "REJECTED")); reflexivity.
Defined.

(** C1 (as stated) fails: with transport status 500 and a body carrying
    [erro], both listings answer with status 500, not 401. *)
Lemma getToken_marker_with_transport_failure :
  let h := Demo.server None Demo.session_header (Some (mkResponse 500 None "REJECTED")) None in
  prop (parse_or_null h "REJECTED") "erro" = Some (JStr "usuario_invalido")
  /\ fst (V1.getToken h Demo.base Demo.cookie []) = Returned (TokFail 500 (JStr "REJECTED"))
  /\ fst (V2.getToken h Demo.base Demo.cookie []) =
       Returned (TokFail 500 (JObj [("erro", JStr "usuario_invalido")]))
  /\ ~ (forall (h : host) (baseUrl cookie : string) (tr : trace) (r : response) (erro : json),
          net h tr (token_request h baseUrl cookie) = Some r ->
          prop (parse_or_null h (text r)) "erro" = Some erro ->
          exists raw, fst (V2.getToken h baseUrl cookie tr) = Returned (TokFail 401 raw)).
Proof.
  intros h. repeat split; try reflexivity.
  intros claim.
  destruct (claim h Demo.base Demo.cookie [] (mkResponse 500 None "REJECTED")
              (JStr "usuario_invalido") eq_refl eq_refl) as [raw Hraw].
  vm_compute in Hraw. discriminate.
Qed.

(** C2 (failing input).  In the earlier listing a deployment with a base
    URL but no client credentials is not rejected: [authCycle] probes the
    upstream and posts the token request, with the credential built from
    the text "undefined:undefined".  The later listing answers 500 on the
    same host without sending anything. *)
Theorem V1_authCycle_missing_credentials_reaches_upstream :
  let h := Demo.server_without_credentials Demo.session_header Demo.token_ok None in
  GESPROV_CLIENT_ID h = None
  /\ GESPROV_CLIENT_SECRET h = None
  /\ V1.authCycle h [] =
       (Returned (V1.AuthOk Demo.cookie Demo.token),
        [probe_request "http://gesprov.test/";
         token_request h Demo.base Demo.cookie])
  /\ assoc "Authorization" (req_headers (token_request h Demo.base Demo.cookie)) =
       Some "Basic b64:undefined:undefined"
  /\ V2.authCycle h [] =
       (Returned (V2.AuthFail 500 "GESPROV_CLIENT_ID / GESPROV_CLIENT_SECRET not set" undefined),
        []).
Proof. intros h. repeat split; reflexivity. Qed.

(** C3.  When the three probes yield no cookie and no fallback session id
    is configured, [authCycle] fails with status 502; the only calls made
    are the three GET probes, so no token request was sent. *)
Theorem authCycle_session_unobtainable_502 :
  forall (h : host) (tr tr' : trace),
    base_url h <> "" ->
    truthy_str (GESPROV_CLIENT_ID h) = true ->
    truthy_str (GESPROV_CLIENT_SECRET h) = true ->
    openSession h (base_url h) tr = (Returned None, tr') ->
    truthy_str (GESPROV_PHPSESSID h) = false ->
    V2.authCycle h tr =
      (Returned (V2.AuthFail 502 "Could not obtain PHPSESSID (session required)" undefined), tr')
    /\ V1.authCycle h tr =
      (Returned (V1.AuthFail 502 "Could not obtain PHPSESSID (session required)" undefined), tr')
    /\ tr' = (tr ++ map probe_request (tries (base_url h)))%list
    /\ length (tries (base_url h)) = 3%nat
    /\ (forall rq, In rq (map probe_request (tries (base_url h))) -> req_method rq = GET)
    /\ (forall baseUrl cookie,
          ~ In (token_request h baseUrl cookie) (map probe_request (tries (base_url h)))).
Proof.
  intros h tr tr' Hbase Hid Hsec Hopen Hfixed.
  destruct (authCycle_no_session h tr tr' Hbase Hopen Hfixed) as [H1 H2].
  assert (Hget : forall rq, In rq (map probe_request (tries (base_url h))) ->
                            req_method rq = GET).
  { intros rq Hin. apply in_map_iff in Hin. destruct Hin as (url & <- & _). reflexivity. }
  split; [exact (H2 Hid Hsec)|].
  split; [exact H1|].
  split; [exact (probe_none_trace h _ tr tr' Hopen)|].
  split; [reflexivity|].
  split; [exact Hget|].
  intros baseUrl cookie Hin. apply Hget in Hin. discriminate.
Qed.

Lemma authCycle_session_unobtainable_502_witness :
  let h := Demo.server None None Demo.token_ok None in
  let probes := map probe_request (tries Demo.base) in
  openSession h (base_url h) [] = (Returned None, probes)
  /\ V2.authCycle h [] =
       (Returned (V2.AuthFail 502 "Could not obtain PHPSESSID (session required)" undefined),
        probes).
Proof.
  intros h probes.
  assert (Hopen : openSession h (base_url h) [] = (Returned None, probes)) by reflexivity.
  split; [exact Hopen|].
  apply (authCycle_session_unobtainable_502 h [] probes);
    [discriminate | reflexivity | reflexivity | exact Hopen | reflexivity].
Defined.

(** C4.  When the Session Opener yields a cookie, [authCycle] sends exactly
    one further call, the token request carrying that cookie; an
    authenticated result holds that cookie; and the outcome is the same
    whatever fallback session id is configured.  Both listings. *)
Theorem authCycle_probed_cookie_first :
  forall (h : host) (tr tr' : trace) (sid : string),
    base_url h <> "" ->
    truthy_str (GESPROV_CLIENT_ID h) = true ->
    truthy_str (GESPROV_CLIENT_SECRET h) = true ->
    openSession h (base_url h) tr = (Returned (Some sid), tr') ->
    assoc "Cookie" (req_headers (token_request h (base_url h) sid)) = Some sid
    /\ (snd (V2.authCycle h tr) = (tr' ++ [token_request h (base_url h) sid])%list
        /\ (forall c t tt tr2,
              V2.authCycle h tr = (Returned (V2.AuthOk c t tt), tr2) -> c = sid)
        /\ (forall fixed, V2.authCycle (with_PHPSESSID fixed h) tr = V2.authCycle h tr))
    /\ (snd (V1.authCycle h tr) = (tr' ++ [token_request h (base_url h) sid])%list
        /\ (forall c t tr2, V1.authCycle h tr = (Returned (V1.AuthOk c t), tr2) -> c = sid)
        /\ (forall fixed, V1.authCycle (with_PHPSESSID fixed h) tr = V1.authCycle h tr)).
Proof.
  intros h tr tr' sid Hbase Hid Hsec Hopen.
  assert (Hopen' : forall fixed,
    openSession (with_PHPSESSID fixed h) (base_url (with_PHPSESSID fixed h)) tr
    = (Returned (Some sid), tr')).
  { intros fixed. unfold openSession. rewrite probe_with_PHPSESSID. exact Hopen. }
  destruct (getToken_trace h (base_url h) sid tr') as [Ht1 Ht2].
  split; [reflexivity|]. split.
  - pose proof (V2_authCycle_probed h tr tr' Hbase sid Hid Hsec Hopen) as Hrun.
    split; [|split].
    + rewrite Hrun.
      destruct (V2.getToken h (base_url h) sid tr') as [[[st raw|a t]|] tr2]; exact Ht2.
    + intros c t tt tr2. rewrite Hrun.
      destruct (V2.getToken h (base_url h) sid tr') as [[[st raw|a t0]|] tr3];
        [discriminate | | discriminate].
      now intros [= <- _ _ _].
    + intros fixed.
      rewrite (V2_authCycle_probed (with_PHPSESSID fixed h) tr tr' Hbase sid Hid Hsec
                 (Hopen' fixed)).
      rewrite Hrun. reflexivity.
  - pose proof (V1_authCycle_probed h tr tr' Hbase sid Hopen) as Hrun.
    split; [|split].
    + rewrite Hrun.
      destruct (V1.getToken h (base_url h) sid tr') as [[[st raw|a t]|] tr2]; exact Ht1.
    + intros c t tr2. rewrite Hrun.
      destruct (V1.getToken h (base_url h) sid tr') as [[[st raw|a t0]|] tr3];
        [discriminate | | discriminate].
      now intros [= <- _ _].
    + intros fixed.
      rewrite (V1_authCycle_probed (with_PHPSESSID fixed h) tr tr' Hbase sid (Hopen' fixed)).
      rewrite Hrun. reflexivity.
Qed.

Lemma authCycle_probed_cookie_first_witness :
  let h := Demo.server (Some "fixed-session") Demo.session_header Demo.token_ok None in
  openSession h (base_url h) [] = (Returned (Some Demo.cookie), [probe_request "http://gesprov.test/"])
  /\ truthy_str (GESPROV_PHPSESSID h) = true
  /\ snd (V2.authCycle h []) =
       [probe_request "http://gesprov.test/"; token_request h Demo.base Demo.cookie].
Proof.
  intros h.
  assert (Hopen : openSession h (base_url h) [] =
                  (Returned (Some Demo.cookie), [probe_request "http://gesprov.test/"]))
    by reflexivity.
  split; [exact Hopen|]. split; [reflexivity|].
  destruct (authCycle_probed_cookie_first h [] [probe_request "http://gesprov.test/"]
              Demo.cookie) as (_ & (Hsent & _) & _);
    [discriminate | reflexivity | reflexivity | exact Hopen | exact Hsent].
Defined.

(** C5.  A 2xx token response without error marker is decoded over the
    ordered shapes [data.access_token], [access_token], [token_acesso]:
    no usable field gives failure 502, otherwise success with the first
    match and the token type of the response, or "Bearer".  Both listings
    compute [decode_token]. *)
Theorem getToken_first_match_wins :
  forall (h : host) (baseUrl cookie : string) (tr : trace) (r : response),
    net h tr (token_request h baseUrl cookie) = Some r ->
    ok r = true ->
    truthy (Some (parse_or_null h (text r)) ?. "erro") = false ->
    V1.getToken h baseUrl cookie tr =
      (Returned (decode_token (parse_or_null h (text r)) (text r)),
       (tr ++ [token_request h baseUrl cookie])%list)
    /\ V2.getToken h baseUrl cookie tr =
      (Returned (decode_token (parse_or_null h (text r)) (text r)),
       (tr ++ [token_request h baseUrl cookie])%list).
Proof.
  intros h baseUrl cookie tr r Hnet Hok Herro.
  exact (getToken_decodes h baseUrl cookie tr r Hnet Hok Herro).
Qed.

Lemma getToken_first_match_wins_witness :
  let h := Demo.server None Demo.session_header Demo.token_ok None in
  ok (mkResponse 200 None "TOKEN") = true
  /\ V2.getToken h Demo.base Demo.cookie [] =
       (Returned (TokOk (Some (JStr "tok-1")) (Some (JStr "Bearer"))),
        [token_request h Demo.base Demo.cookie]).
Proof.
  intros h. split; [reflexivity|].
  apply (getToken_first_match_wins h Demo.base Demo.cookie [] (mkResponse 200 None "TOKEN"));
    reflexivity.
Defined.

Example decode_token_nested_first :
  decode_token
    (JObj [("access_token", JStr "top"); ("data", JObj [("access_token", JStr "nested")])]) ""
  = TokOk (Some (JStr "nested")) (Some (JStr "Bearer")).
Proof. reflexivity. Qed.

Example decode_token_legacy_name :
  decode_token (JObj [("token_acesso", JStr "legacy"); ("token_type", JStr "MAC")]) ""
  = TokOk (Some (JStr "legacy")) (Some (JStr "MAC")).
Proof. reflexivity. Qed.

Example decode_token_no_field :
  decode_token (JObj [("expires_in", JNum 3600)]) "body"
  = TokFail 502 (JObj [("expires_in", JNum 3600)]).
Proof. reflexivity. Qed.

Lemma erro_status_cases (erro : jsval) :
  (erro = Some (JStr "usuario_invalido") -> erro_status erro = 401)
  /\ (erro <> Some (JStr "usuario_invalido") -> erro_status erro = 400).
Proof.
  split.
  - intros ->. reflexivity.
  - intros Hne. destruct erro as [[| | |s| |]|]; try reflexivity.
    unfold erro_status. destruct (String.eqb_spec s "usuario_invalido"); [|reflexivity].
    subst. contradiction.
Qed.

(** The later auth route: shape [{ok, cookie, token, token_type}] on
    success, the failure object at its status otherwise. *)
Lemma V2_auth_route_shape (h : host) (req : inbound) (tr tr1 : trace) :
  requireKey h req = KeyOk ->
  (forall cookie token token_type,
     V2.authCycle h tr = (Returned (V2.AuthOk cookie token token_type), tr1) ->
     exists t tt,
       token = Some t /\ token_type = Some tt /\
       V2.post_gesprov_auth h req tr =
       (Returned
          (mkReply 200
             (JObj [("ok", JBool true); ("cookie", JStr cookie);
                    ("token", t); ("token_type", tt)])), tr1))
  /\ (forall st error raw,
        V2.authCycle h tr = (Returned (V2.AuthFail st error raw), tr1) ->
        st <> 0 ->
        V2.post_gesprov_auth h req tr =
        (Returned
           (mkReply st
              (obj [("ok", Some (JBool false)); ("status", Some (JNum st));
                    ("error", Some (JStr error)); ("raw", raw)])), tr1)).
Proof.
  intros Hkey. split.
  - intros cookie token token_type Hauth.
    assert (Htruthy : truthy token = true /\ truthy token_type = true).
    { revert Hauth. unfold V2.authCycle.
      destruct (String.eqb _ ""); [discriminate|].
      destruct (negb _ || negb _); [discriminate|].
      rewrite bind_eq. destruct (openSession h _ tr) as [[sid|] tr'] eqn:Eo; [|discriminate].
      destruct (as_truthy _) as [c|]; [|discriminate].
      rewrite bind_eq. destruct (V2.getToken h _ c tr') as [[[st raw|a t]|] tr2] eqn:Et;
        try discriminate.
      unfold ret. intros [= _ <- <- _].
      eapply getToken_ok_truthy. right. exact Et. }
    destruct Htruthy as [Ht Htt].
    destruct token as [t|]; [|discriminate]. destruct token_type as [tt|]; [|discriminate].
    exists t, tt. split; [reflexivity|]. split; [reflexivity|].
    unfold V2.post_gesprov_auth. rewrite Hkey, bind_eq, Hauth. reflexivity.
  - intros st error raw Hauth Hst.
    unfold V2.post_gesprov_auth. rewrite Hkey, bind_eq, Hauth.
    cbv beta iota. unfold status_or_500.
    destruct (Z.eqb_spec st 0); [contradiction | reflexivity].
Qed.

(** C8 (failing input).  With a healthy upstream the auth route of the
    earlier listing answers [{ok, cookie, token}]: no [token_type], which
    its [getToken] had returned and its [authCycle] dropped.  The later
    listing answers all four properties on the same host. *)
Theorem V1_auth_route_omits_token_type :
  let h := Demo.server None Demo.session_header Demo.token_ok None in
  let no_body := mkInbound None None undefined in
  fst (V1.getToken h Demo.base Demo.cookie []) =
    Returned (TokOk Demo.token (Some (JStr "Bearer")))
  /\ V1.post_gesprov_auth h no_body [] =
       (Returned
          (mkReply 200
             (JObj [("ok", JBool true); ("cookie", JStr Demo.cookie);
                    ("token", JStr "tok-1")])), Demo.handshake)
  /\ prop (JObj [("ok", JBool true); ("cookie", JStr Demo.cookie); ("token", JStr "tok-1")])
       "token_type" = undefined
  /\ V2.post_gesprov_auth h no_body [] =
       (Returned
          (mkReply 200
             (JObj [("ok", JBool true); ("cookie", JStr Demo.cookie);
                    ("token", JStr "tok-1"); ("token_type", JStr "Bearer")])),
        Demo.handshake).
Proof. intros h no_body. repeat split; reflexivity. Qed.

Section BusinessCall.

Variables (h : host) (req : inbound) (tr tr1 : trace).
Variables (cookie : string) (token token_type : jsval) (r : response).
Hypothesis Hkey : requireKey h req = KeyOk.
Hypothesis Hcpf : truthy (body_field req "cpf_cnpj") = true.
Hypothesis Hprint : prints h (body_field req "cpf_cnpj") = true.
Hypothesis Htoken : prints h token = true.
Hypothesis Hauth : V2.authCycle h tr = (Returned (V2.AuthOk cookie token token_type), tr1).
Hypothesis Hcliente : net h tr1 (cliente_call h req cookie token) = Some r.
Hypothesis Hfaturas : net h tr1 (faturas_call h req cookie token) = Some r.
Hypothesis Hcliente1 : net h tr1 (cliente_call_v1 h req cookie token) = Some r.

Local Abbreviation payload := (parse_or_null h (text r)).
Local Abbreviation erro := (Some (parse_or_null h (text r)) ?. "erro").

(** C6.  On a non-2xx upstream answer without error marker the faturas
    route replies with the upstream status, the cliente route (both
    listings) with 502.  The business call is reached with a cpf_cnpj and
    a token that String() prints. *)
Theorem transport_failure_faturas_forwards_cliente_502 :
  ok r = false ->
  truthy erro = false ->
  (exists details,
     V2.post_gesprov_faturas h req tr =
     (Returned (mkReply (status r) details),
      (tr1 ++ [faturas_call h req cookie token])%list))
  /\ (exists details,
        V2.post_gesprov_cliente h req tr =
        (Returned (mkReply 502 details),
         (tr1 ++ [cliente_call h req cookie token])%list))
  /\ (exists details,
        V1.post_gesprov_cliente h req tr =
        (Returned (mkReply 502 details),
         (tr1 ++ [cliente_call_v1 h req cookie token])%list)).
Proof.
  intros Hok He. split; [|split]; eexists.
  - exact (faturas_transport_failure h req tr tr1 cookie token r Hkey Hcpf Hprint Htoken token_type
             Hauth Hfaturas He Hok).
  - exact (cliente_transport_failure h req tr tr1 cookie token r Hkey Hcpf Hprint Htoken token_type
             Hauth Hcliente He Hok).
  - exact (V1_cliente_transport_failure h req tr tr1 cookie token r Hkey Hcpf Hprint Htoken
             (authCycle_agree_on_success _ _ _ _ _ _ Hauth) Hcliente1 He Hok).
Qed.

(** C7 (as amended).  In the transport-failure branch of the business
    routes the upstream body text forwarded as [raw] is cut to its first
    1200 UTF-16 code units (800 in the earlier listing), and is the whole
    text when that is no longer; for the faturas route this is the case
    when the body gave no parsed payload. *)
Theorem transport_failure_raw_truncated :
  ok r = false ->
  truthy erro = false ->
  (exists error raw,
     V2.post_gesprov_cliente h req tr =
     (Returned (mkReply 502 (JObj [("error", JStr error); ("raw", JStr raw)])),
      (tr1 ++ [cliente_call h req cookie token])%list)
     /\ raw = slice0 1200 (text r) /\ (utf16_length raw <= 1200)%nat
     /\ ((utf16_length (text r) <= 1200)%nat -> raw = text r))
  /\ (exists error raw,
        V1.post_gesprov_cliente h req tr =
        (Returned (mkReply 502 (JObj [("error", JStr error); ("raw", JStr raw)])),
         (tr1 ++ [cliente_call_v1 h req cookie token])%list)
        /\ raw = slice0 800 (text r) /\ (utf16_length raw <= 800)%nat
        /\ ((utf16_length (text r) <= 800)%nat -> raw = text r))
  /\ (payload = JNull ->
      exists error raw,
        V2.post_gesprov_faturas h req tr =
        (Returned
           (mkReply (status r)
              (JObj [("error", JStr error); ("details", JObj [("raw", JStr raw)])])),
         (tr1 ++ [faturas_call h req cookie token])%list)
        /\ raw = slice0 1200 (text r) /\ (utf16_length raw <= 1200)%nat
        /\ ((utf16_length (text r) <= 1200)%nat -> raw = text r)).
Proof.
  intros Hok He. split; [|split].
  - eexists _, _.
    split; [|split; [reflexivity | split; [apply slice0_length_le | apply slice0_short]]].
    exact (cliente_transport_failure h req tr tr1 cookie token r Hkey Hcpf Hprint Htoken
             token_type Hauth Hcliente He Hok).
  - eexists _, _.
    split; [|split; [reflexivity | split; [apply slice0_length_le | apply slice0_short]]].
    exact (V1_cliente_transport_failure h req tr tr1 cookie token r Hkey Hcpf Hprint Htoken
             (authCycle_agree_on_success _ _ _ _ _ _ Hauth) Hcliente1 He Hok).
  - intros Hnull. eexists _, _.
    split; [|split; [reflexivity | split; [apply slice0_length_le | apply slice0_short]]].
    rewrite (faturas_transport_failure h req tr tr1 cookie token r Hkey Hcpf Hprint Htoken
               token_type Hauth Hfaturas He Hok).
    rewrite Hnull. reflexivity.
Qed.

(** C9.  In both business routes the error marker is tested before the
    transport status: a truthy [erro] gives 401 when it is the text
    "usuario_invalido" and 400 otherwise, with the payload as body,
    whatever the upstream status; the token exchange tests the transport
    status first.  The business call is reached with a cpf_cnpj and a
    token that String() prints. *)
Theorem business_error_checked_before_transport :
  truthy erro = true ->
  (exists st,
     ((erro = Some (JStr "usuario_invalido") -> st = 401)
      /\ (erro <> Some (JStr "usuario_invalido") -> st = 400))
     /\ V2.post_gesprov_cliente h req tr =
          (Returned (mkReply st payload), (tr1 ++ [cliente_call h req cookie token])%list)
     /\ V2.post_gesprov_faturas h req tr =
          (Returned (mkReply st payload), (tr1 ++ [faturas_call h req cookie token])%list)
     /\ V1.post_gesprov_cliente h req tr =
          (Returned (mkReply st payload), (tr1 ++ [cliente_call_v1 h req cookie token])%list))
  /\ (forall baseUrl c tr0 r0,
        net h tr0 (token_request h baseUrl c) = Some r0 ->
        ok r0 = false ->
        exists raw1 raw2,
          fst (V1.getToken h baseUrl c tr0) = Returned (TokFail (status r0) raw1)
          /\ fst (V2.getToken h baseUrl c tr0) = Returned (TokFail (status r0) raw2)).
Proof.
  intros He. split.
  - exists (erro_status erro). split; [apply erro_status_cases|]. split; [|split].
    + exact (cliente_business_error h req tr tr1 cookie token r Hkey Hcpf Hprint Htoken token_type
               Hauth Hcliente He).
    + exact (faturas_business_error h req tr tr1 cookie token r Hkey Hcpf Hprint Htoken token_type
               Hauth Hfaturas He).
    + exact (V1_cliente_business_error h req tr tr1 cookie token r Hkey Hcpf Hprint Htoken
               (authCycle_agree_on_success _ _ _ _ _ _ Hauth) Hcliente1 He).
  - intros baseUrl c tr0 r0 Hnet Hok.
    destruct (getToken_transport_failure h baseUrl c tr0 r0 Hnet Hok) as [H1 H2].
    eexists _, _. rewrite H1, H2. split; reflexivity.
Qed.

(** C10.  A 2xx upstream answer whose body JSON.parse rejects is no
    error: the cliente route replies 200 with [{raw: text}], the faturas
    route 200 with [{success: true, faturas: null}].  The business call is
    reached with a cpf_cnpj and a token that String() prints. *)
Theorem unparsable_2xx_body_not_an_error :
  ok r = true ->
  JSON_parse h (text r) = None ->
  V2.post_gesprov_cliente h req tr =
    (Returned (mkReply 200 (JObj [("raw", JStr (text r))])),
     (tr1 ++ [cliente_call h req cookie token])%list)
  /\ V2.post_gesprov_faturas h req tr =
    (Returned (mkReply 200 (JObj [("success", JBool true); ("faturas", JNull)])),
     (tr1 ++ [faturas_call h req cookie token])%list)
  /\ V1.post_gesprov_cliente h req tr =
    (Returned (mkReply 200 (JObj [("raw", JStr (text r))])),
     (tr1 ++ [cliente_call_v1 h req cookie token])%list).
Proof.
  intros Hok Hparse.
  assert (Hnull : payload = JNull) by (unfold parse_or_null; now rewrite Hparse).
  assert (He : truthy erro = false) by (now rewrite Hnull).
  split; [|split].
  - rewrite (cliente_passthrough h req tr tr1 cookie token r Hkey Hcpf Hprint Htoken token_type
               Hauth Hcliente He Hok).
    rewrite Hnull. reflexivity.
  - rewrite (faturas_success h req tr tr1 cookie token r Hkey Hcpf Hprint Htoken token_type
               Hauth Hfaturas He Hok).
    rewrite Hnull. reflexivity.
  - rewrite (V1_cliente_passthrough h req tr tr1 cookie token r Hkey Hcpf Hprint Htoken
               (authCycle_agree_on_success _ _ _ _ _ _ Hauth) Hcliente1 He Hok).
    rewrite Hnull. reflexivity.
Qed.

End BusinessCall.

Lemma transport_failure_faturas_forwards_cliente_502_witness :
  let r := mkResponse 503 None "DOWN" in
  let h := Demo.server None Demo.session_header Demo.token_ok (Some r) in
  (ok r = false /\ prop (parse_or_null h (text r)) "erro" = undefined)
  /\ (exists details,
        V2.post_gesprov_faturas h Demo.req [] =
        (Returned (mkReply 503 details),
         (Demo.handshake ++ [faturas_call h Demo.req Demo.cookie Demo.token])%list))
  /\ (exists details,
        V2.post_gesprov_cliente h Demo.req [] =
        (Returned (mkReply 502 details),
         (Demo.handshake ++ [cliente_call h Demo.req Demo.cookie Demo.token])%list)).
Proof.
  intros r h. split; [split; reflexivity|].
  destruct (transport_failure_faturas_forwards_cliente_502 h Demo.req [] Demo.handshake
              Demo.cookie Demo.token (Some (JStr "Bearer")) r) as (Hf & Hc & _);
    try reflexivity.
  split; [exact Hf | exact Hc].
Defined.

Lemma transport_failure_raw_truncated_witness :
  let r := mkResponse 503 None (Demo.accented 1300) in
  let h := Demo.server None Demo.session_header Demo.token_ok (Some r) in
  (ok r = false /\ JSON_parse h (text r) = None)
  /\ exists error raw,
       V2.post_gesprov_cliente h Demo.req [] =
       (Returned (mkReply 502 (JObj [("error", JStr error); ("raw", JStr raw)])),
        (Demo.handshake ++ [cliente_call h Demo.req Demo.cookie Demo.token])%list)
       /\ raw = slice0 1200 (text r) /\ (utf16_length raw <= 1200)%nat
       /\ ((utf16_length (text r) <= 1200)%nat -> raw = text r).
Proof.
  intros r h. split; [split; reflexivity|].
  destruct (transport_failure_raw_truncated h Demo.req [] Demo.handshake
              Demo.cookie Demo.token (Some (JStr "Bearer")) r) as (Hc & _);
    try reflexivity.
  exact Hc.
Defined.

(** C7 (as stated) fails: a token exchange answered 500 with 1300
    characters of text is reported by the cliente route, in both listings,
    with the whole text in [raw]. *)
Lemma auth_failure_raw_not_truncated :
  let h := Demo.server None Demo.session_header
             (Some (mkResponse 500 None (Demo.filler 1300))) None in
  exists raw,
    fst (V2.post_gesprov_cliente h Demo.req []) =
      Returned
        (mkReply 500
           (JObj [("ok", JBool false); ("status", JNum 500);
                  ("error", JStr "Token failed"); ("raw", JStr raw)]))
    /\ fst (V1.post_gesprov_cliente h Demo.req []) =
      Returned
        (mkReply 500
           (JObj [("ok", JBool false); ("status", JNum 500);
                  ("error", JStr "Token failed"); ("raw", JStr raw)]))
    /\ String.length raw = 1300%nat
    /\ ~ (String.length raw <= 1200)%nat.
Proof.
  intros h. exists (Demo.filler 1300).
  split; [vm_compute; reflexivity|].
  split; [vm_compute; reflexivity|].
  assert (Hlen : String.length (Demo.filler 1300) = 1300%nat) by (vm_compute; reflexivity).
  split; [exact Hlen|].
  rewrite Hlen. lia.
Qed.

Lemma business_error_checked_before_transport_witness :
  let r := mkResponse 500 None "REJECTED" in
  let h := Demo.server None Demo.session_header Demo.token_ok (Some r) in
  (ok r = false
   /\ prop (parse_or_null h (text r)) "erro" = Some (JStr "usuario_invalido"))
  /\ exists st,
       st = 401
       /\ V2.post_gesprov_cliente h Demo.req [] =
            (Returned (mkReply st (JObj [("erro", JStr "usuario_invalido")])),
             (Demo.handshake ++ [cliente_call h Demo.req Demo.cookie Demo.token])%list)
       /\ V2.post_gesprov_faturas h Demo.req [] =
            (Returned (mkReply st (JObj [("erro", JStr "usuario_invalido")])),
             (Demo.handshake ++ [faturas_call h Demo.req Demo.cookie Demo.token])%list).
Proof.
  intros r h. split; [split; reflexivity|].
  destruct (business_error_checked_before_transport h Demo.req [] Demo.handshake
              Demo.cookie Demo.token (Some (JStr "Bearer")) r)
    as ((st & (H401 & _) & Hc & Hf & _) & _); try reflexivity.
  exists st. split; [apply H401; reflexivity|]. split; [exact Hc | exact Hf].
Defined.

Lemma unparsable_2xx_body_not_an_error_witness :
  let r := mkResponse 200 None "<html>ok</html>" in
  let h := Demo.server None Demo.session_header Demo.token_ok (Some r) in
  (ok r = true /\ JSON_parse h (text r) = None)
  /\ V2.post_gesprov_cliente h Demo.req [] =
       (Returned (mkReply 200 (JObj [("raw", JStr "<html>ok</html>")])),
        (Demo.handshake ++ [cliente_call h Demo.req Demo.cookie Demo.token])%list)
  /\ V2.post_gesprov_faturas h Demo.req [] =
       (Returned (mkReply 200 (JObj [("success", JBool true); ("faturas", JNull)])),
        (Demo.handshake ++ [faturas_call h Demo.req Demo.cookie Demo.token])%list).
Proof.
  intros r h. split; [split; reflexivity|].
  destruct (unparsable_2xx_body_not_an_error h Demo.req [] Demo.handshake
              Demo.cookie Demo.token (Some (JStr "Bearer")) r) as (Hc & Hf & _);
    try reflexivity.
  split; [exact Hc | exact Hf].
Defined.

(** * Further properties of the code *)

(** ** Strings *)

Lemma string_app_assoc (a b c : string) : (a ++ b) ++ c = a ++ b ++ c.
Proof. induction a as [|x a IH]; simpl; [reflexivity | now rewrite IH]. Qed.

Lemma string_app_nil_r (a : string) : a ++ "" = a.
Proof. induction a as [|x a IH]; simpl; [reflexivity | now rewrite IH]. Qed.

Lemma string_length_app (a b : string) :
  String.length (a ++ b) = (String.length a + String.length b)%nat.
Proof. induction a as [|x a IH]; simpl; [reflexivity | now rewrite IH]. Qed.

(** Two splittings of one string: the longer first part extends the
    shorter one. *)
Lemma string_app_split (a b c d : string) :
  a ++ b = c ++ d ->
  (String.length c < String.length a)%nat ->
  exists p, p <> "" /\ a = c ++ p /\ d = p ++ b.
Proof.
  revert a; induction c as [|x c IH]; intros a Heq Hlen; simpl in *.
  - exists a. split; [|split; [reflexivity | now symmetry]].
    destruct a; [simpl in Hlen; lia | discriminate].
  - destruct a as [|y a]; simpl in *; [lia|].
    injection Heq as -> Heq.
    destruct (IH a Heq ltac:(lia)) as (p & Hp & -> & ->).
    exists p. repeat split; assumption.
Qed.

Lemma upcase_string_length (s : string) :
  String.length (upcase_string s) = String.length s.
Proof. induction s as [|c s IH]; simpl; [reflexivity | now rewrite IH]. Qed.

Lemma skip_prefix_ci_sound (p s rest : string) :
  skip_prefix_ci p s = Some rest ->
  exists name,
    s = name ++ rest /\ upcase_string name = upcase_string p
    /\ substring 0 (String.length p) s = name.
Proof.
  revert s; induction p as [|a p IH]; intros s; simpl.
  - intros [= ->]. exists "". repeat split. destruct rest; reflexivity.
  - destruct s as [|b s]; [discriminate|].
    destruct (Ascii.eqb_spec (upcase a) (upcase b)) as [E|E]; [|discriminate].
    intros H. destruct (IH s H) as (name & -> & Hup & Hsub).
    exists (String b name). simpl. rewrite Hup, E, Hsub. repeat split.
Qed.

Lemma skip_prefix_ci_complete (p name x : string) :
  upcase_string name = upcase_string p ->
  skip_prefix_ci p (name ++ x) = Some x.
Proof.
  revert name; induction p as [|a p IH]; intros [|b name]; simpl; try discriminate.
  - reflexivity.
  - intros [= Hb Hname]. rewrite Hb, Ascii.eqb_refl. now apply IH.
Qed.

Lemma take_non_semi_split (s : string) :
  exists rest,
    s = take_non_semi s ++ rest
    /\ string_forall not_semicolon (take_non_semi s) = true
    /\ (rest = "" \/ exists rest', rest = String ";" rest').
Proof.
  induction s as [|c s (rest & Hs & Hall & Hrest)]; simpl.
  - exists "". repeat split. now left.
  - destruct (Ascii.eqb_spec c ";") as [->|Hc].
    + exists (String ";" s). repeat split. right. now exists s.
    + exists rest. simpl. rewrite <- Hs. repeat split; [|exact Hrest].
      unfold not_semicolon. destruct (Ascii.eqb_spec c ";"); [contradiction|].
      exact Hall.
Qed.

Lemma match_here_sound (s m : string) :
  match_here s = Some m ->
  exists name value rest,
    s = name ++ value ++ rest /\ m = name ++ value
    /\ upcase_string name = "PHPSESSID="
    /\ value <> ""
    /\ string_forall not_semicolon value = true
    /\ (rest = "" \/ exists rest', rest = String ";" rest').
Proof.
  unfold match_here.
  destruct (skip_prefix_ci "PHPSESSID=" s) as [after|] eqn:Eskip; [|discriminate].
  destruct (skip_prefix_ci_sound _ _ _ Eskip) as (name & -> & Hup & Hsub).
  destruct (take_non_semi_split after) as (rest & Hafter & Hall & Hrest).
  destruct (take_non_semi after) as [|c v] eqn:Etake; [discriminate|].
  intros [= <-]. exists name, (String c v), rest.
  change (String.length "PHPSESSID=") with 10%nat in Hsub. rewrite Hsub.
  repeat split; try assumption; [now rewrite <- Hafter | discriminate].
Qed.

Lemma match_here_complete (name value rest : string) (c : ascii) :
  upcase_string name = "PHPSESSID=" ->
  not_semicolon c = true ->
  exists m, match_here (name ++ String c value ++ rest) = Some m.
Proof.
  intros Hup Hc. unfold match_here.
  rewrite (skip_prefix_ci_complete "PHPSESSID=" name _ Hup). simpl.
  unfold not_semicolon in Hc. destruct (Ascii.eqb c ";"); [discriminate|].
  eexists; reflexivity.
Qed.

(** The search returns the match at the first position that has one. *)
Lemma match_PHPSESSID_decompose (s m : string) :
  match_PHPSESSID s = Some m ->
  exists pre suf,
    s = pre ++ suf /\ match_here suf = Some m
    /\ forall p1 p2, pre = p1 ++ p2 -> p2 <> "" -> match_here (p2 ++ suf) = None.
Proof.
  induction s as [|c s IH]; rewrite match_PHPSESSID_eq.
  - destruct (match_here "") eqn:E; [|discriminate].
    intros [= <-]. exists "", "". repeat split; [exact E|].
    intros [|? ?] p2; simpl; [intros <- Hp2; contradiction | discriminate].
  - destruct (match_here (String c s)) as [m0|] eqn:E.
    + intros [= <-]. exists "", (String c s). repeat split; [exact E|].
      intros [|? ?] p2; simpl; [intros <- Hp2; contradiction | discriminate].
    + intros H. destruct (IH H) as (pre & suf & -> & Hm & Hleft).
      exists (String c pre), suf. repeat split; [exact Hm|].
      intros [|x p1] p2; simpl.
      * intros <- _. exact E.
      * intros [= _ ->] Hp2. now apply (Hleft p1 p2).
Qed.

Lemma match_PHPSESSID_none (s : string) :
  match_PHPSESSID s = None ->
  forall pre suf, s = pre ++ suf -> match_here suf = None.
Proof.
  induction s as [|c s IH]; rewrite match_PHPSESSID_eq.
  - destruct (match_here "") eqn:E; [discriminate|].
    intros _ [|? ?] suf; simpl; [now intros <- | discriminate].
  - destruct (match_here (String c s)) eqn:E; [discriminate|].
    intros H [|x pre] suf; simpl.
    + now intros <-.
    + intros [= _ ->]. now apply (IH H pre suf).
Qed.

Lemma match_here_occurrence (suf m : string) :
  match_here suf = Some m ->
  exists name value rest, occurrence suf "" name value rest /\ m = name ++ take_non_semi (value ++ rest).
Proof.
  unfold match_here.
  destruct (skip_prefix_ci "PHPSESSID=" suf) as [after|] eqn:Eskip; [|discriminate].
  destruct (skip_prefix_ci_sound _ _ _ Eskip) as (name & -> & Hup & Hsub).
  destruct after as [|c after]; [discriminate|]. simpl.
  destruct (Ascii.eqb_spec c ";") as [->|Hc]; [discriminate|].
  intros [= <-]. exists name, (String c ""), after.
  change (String.length "PHPSESSID=") with 10%nat in Hsub.
  split; [|simpl; rewrite Hsub; destruct (Ascii.eqb_spec c ";"); [contradiction | reflexivity]].
  split; [reflexivity|]. split; [exact Hup|].
  exists c, "". split; [reflexivity|].
  unfold not_semicolon. destruct (Ascii.eqb_spec c ";"); [contradiction | reflexivity].
Qed.

(** X1.  The match returned for /PHPSESSID=[^;]+/i is the name in any
    letter case followed by the longest non-empty run of characters other
    than the semicolon, and no occurrence of the pattern starts earlier in
    the input. *)
Theorem match_PHPSESSID_leftmost_greedy :
  forall s m : string,
    match_PHPSESSID s = Some m ->
    exists pre name value rest,
      s = pre ++ name ++ value ++ rest
      /\ m = name ++ value
      /\ upcase_string name = "PHPSESSID="
      /\ value <> ""
      /\ string_forall not_semicolon value = true
      /\ (rest = "" \/ exists rest', rest = String ";" rest')
      /\ forall pre' name' value' rest',
           occurrence s pre' name' value' rest' ->
           (String.length pre <= String.length pre')%nat.
Proof.
  intros s m H.
  destruct (match_PHPSESSID_decompose s m H) as (pre & suf & -> & Hm & Hleft).
  destruct (match_here_sound suf m Hm) as (name & value & rest & -> & -> & Hup & Hv & Hall & Hrest).
  exists pre, name, value, rest. repeat split; try assumption.
  intros pre' name' value' rest' (Heq & Hup' & c & v' & -> & Hc).
  destruct (Nat.le_gt_cases (String.length pre) (String.length pre')) as [Hle|Hgt];
    [exact Hle | exfalso].
  destruct (string_app_split _ _ _ _ Heq Hgt) as (p & Hp & -> & Hsuf).
  specialize (Hleft pre' p eq_refl Hp). rewrite <- Hsuf in Hleft.
  destruct (match_here_complete name' v' rest' c Hup' Hc) as [m' Hm'].
  congruence.
Qed.

Lemma match_PHPSESSID_leftmost_greedy_witness :
  match_PHPSESSID "lang=pt; PhpSessId=v1-77; HttpOnly" = Some "PhpSessId=v1-77"
  /\ exists pre name value rest,
       "lang=pt; PhpSessId=v1-77; HttpOnly" = pre ++ name ++ value ++ rest
       /\ "PhpSessId=v1-77" = name ++ value
       /\ upcase_string name = "PHPSESSID="
       /\ value <> ""
       /\ string_forall not_semicolon value = true
       /\ (rest = "" \/ exists rest', rest = String ";" rest')
       /\ forall pre' name' value' rest',
            occurrence "lang=pt; PhpSessId=v1-77; HttpOnly" pre' name' value' rest' ->
            (String.length pre <= String.length pre')%nat.
Proof.
  split; [reflexivity|].
  apply (match_PHPSESSID_leftmost_greedy "lang=pt; PhpSessId=v1-77; HttpOnly"). reflexivity.
Defined.

(** X2.  The pattern fails exactly on the inputs with no occurrence: no
    position where PHPSESSID= (any letter case) is followed by a character
    other than the semicolon. *)
Theorem match_PHPSESSID_none_iff :
  forall s : string,
    match_PHPSESSID s = None <->
    ~ exists pre name value rest, occurrence s pre name value rest.
Proof.
  intros s. split.
  - intros Hnone (pre & name & value & rest & Heq & Hup & c & v' & -> & Hc).
    pose proof (match_PHPSESSID_none s Hnone pre _ Heq) as Hhere.
    destruct (match_here_complete name v' rest c Hup Hc) as [m Hm]. congruence.
  - intros Hno. destruct (match_PHPSESSID s) as [m|] eqn:E; [exfalso | reflexivity].
    destruct (match_PHPSESSID_decompose s m E) as (pre & suf & -> & Hm & _).
    destruct (match_here_occurrence suf m Hm) as (name & value & rest & (Heq & Hup & Hval) & _).
    apply Hno. exists pre, name, value, rest.
    split; [now rewrite Heq | split; assumption].
Qed.

Lemma digits_only_all_digits (s : string) : string_forall is_digit (digits_only s) = true.
Proof.
  induction s as [|c s IH]; simpl; [reflexivity|].
  destruct (is_digit c) eqn:E; [simpl; now rewrite E | exact IH].
Qed.

Lemma digits_only_fixpoint (s : string) :
  digits_only s = s <-> string_forall is_digit s = true.
Proof.
  split.
  - intros <-. apply digits_only_all_digits.
  - induction s as [|c s IH]; simpl; [reflexivity|].
    destruct (is_digit c); simpl; [|discriminate]. intros H. now rewrite IH.
Qed.

(** X3.  The cpf_cnpj normalisation [.replace(/\D/g, "")] keeps exactly the
    digits, in order, and removes every other character: its characters
    are those of the input that are digits.  So its result is all digits,
    it leaves digit strings alone (and only those), it is idempotent, never
    longer than its input, and works piecewise. *)
Theorem digits_only_normalizes :
  forall s : string,
    list_ascii_of_string (digits_only s) = filter is_digit (list_ascii_of_string s)
    /\ string_forall is_digit (digits_only s) = true
    /\ (digits_only s = s <-> string_forall is_digit s = true)
    /\ digits_only (digits_only s) = digits_only s
    /\ (String.length (digits_only s) <= String.length s)%nat
    /\ forall t, digits_only (s ++ t) = digits_only s ++ digits_only t.
Proof.
  intros s. split.
  { induction s as [|c s IH]; simpl; [reflexivity|].
    destruct (is_digit c); simpl; now rewrite IH. }
  split; [apply digits_only_all_digits|].
  split; [apply digits_only_fixpoint|].
  split; [apply digits_only_fixpoint, digits_only_all_digits|].
  split.
  - induction s as [|c s IH]; simpl; [lia|]. destruct (is_digit c); simpl; lia.
  - intros t. induction s as [|c s IH]; simpl; [reflexivity|].
    destruct (is_digit c); simpl; now rewrite IH.
Qed.

Lemma strip_trailing_slash_cons (c : ascii) (s : string) :
  s <> "" -> strip_trailing_slash (String c s) = String c (strip_trailing_slash s).
Proof. destruct s; [contradiction | reflexivity]. Qed.

Lemma strip_trailing_slash_cases (s : string) :
  (exists p, s = p ++ "/" /\ strip_trailing_slash s = p)
  \/ (strip_trailing_slash s = s /\ forall p, s <> p ++ "/").
Proof.
  induction s as [|c s IH].
  - right. split; [reflexivity|]. intros [|? ?]; discriminate.
  - destruct s as [|d s].
    + simpl. destruct (Ascii.eqb_spec c "/") as [->|Hc].
      * left. exists "". split; reflexivity.
      * right. split; [reflexivity|].
        intros [|x [|? ?]]; simpl; try discriminate. intros [= ->]. contradiction.
    + rewrite strip_trailing_slash_cons by discriminate.
      destruct IH as [(p & Hp & Hs) | (Hs & Hno)].
      * left. exists (String c p). rewrite Hs. split; [simpl; now rewrite <- Hp | reflexivity].
      * right. rewrite Hs. split; [reflexivity|].
        intros [|x p]; simpl; [discriminate|]. intros [= _ H]. exact (Hno p H).
Qed.

(** X4.  [.replace(/\/$/, "")] drops one trailing slash and nothing else: a
    string ending in a slash loses exactly that character, any other string
    is unchanged; the result is empty only for the empty string and for the
    lone slash. *)
Theorem strip_trailing_slash_one_slash :
  forall s : string,
    ((exists p, s = p ++ "/" /\ strip_trailing_slash s = p)
     \/ (strip_trailing_slash s = s /\ forall p, s <> p ++ "/"))
    /\ (strip_trailing_slash s = "" <-> s = "" \/ s = "/")
    /\ strip_trailing_slash (s ++ "//") = s ++ "/".
Proof.
  intros s. split; [apply strip_trailing_slash_cases|]. split.
  - split.
    + destruct (strip_trailing_slash_cases s) as [(p & -> & Hs) | (Hs & _)].
      * rewrite Hs. intros ->. now right.
      * rewrite Hs. intros ->. now left.
    + intros [-> | ->]; reflexivity.
  - destruct (strip_trailing_slash_cases (s ++ "//")) as [(p & Hp & Hs) | (_ & Hno)].
    + rewrite Hs. clear Hs. revert p Hp. induction s as [|c s IH]; intros p Hp.
      * destruct p as [|x [|y [|? ?]]]; simpl in Hp; try discriminate.
        simpl. congruence.
      * destruct p as [|x p]; simpl in Hp.
        -- destruct s; discriminate.
        -- injection Hp as <- Hp. simpl. now rewrite (IH p Hp).
    + exfalso. apply (Hno (s ++ "/")). now rewrite string_app_assoc.
Qed.

(** ** Session Opener, continued *)

(** One turn of the probe loop. *)
Lemma probe_cons (h : host) (url : string) (rest : list string) (tr : trace) :
  probe h (url :: rest) tr =
  match yields h tr url with
  | Some m => (Returned (Some m), (tr ++ [probe_request url])%list)
  | None => probe h rest (tr ++ [probe_request url])%list
  end.
Proof.
  simpl. unfold bind, try_catch, fetch, ret, yields.
  destruct (net h tr (probe_request url)) as [r|]; [|reflexivity].
  destruct (set_cookie r) as [c|]; [|reflexivity].
  destruct (match_PHPSESSID c); reflexivity.
Qed.

Lemma probe_trace_prefix (h : host) (urls : list string) (tr : trace) :
  exists o n,
    (n <= length urls)%nat
    /\ probe h urls tr = (Returned o, (tr ++ map probe_request (firstn n urls))%list)
    /\ (o = None -> n = length urls)
    /\ (urls <> [] -> (1 <= n)%nat).
Proof.
  revert tr; induction urls as [|url rest IH]; intros tr.
  - exists None, 0%nat. simpl. unfold ret. rewrite app_nil_r.
    repeat split; try lia. congruence.
  - rewrite probe_cons. destruct (yields h tr url) as [m|].
    + exists (Some m), 1%nat. simpl. repeat split; try lia. discriminate.
    + destruct (IH (tr ++ [probe_request url])%list) as (o & n & Hn & Hrun & Hnone & _).
      exists o, (S n). simpl. rewrite Hrun, <- app_assoc.
      repeat split; try lia. intros Ho. now rewrite (Hnone Ho).
Qed.

Lemma probe_first_match (h : host) (urls : list string) (tr : trace) (k : nat)
  (url m : string) :
  nth_error urls k = Some url ->
  (forall i u, (i < k)%nat -> nth_error urls i = Some u ->
               yields h (tr ++ map probe_request (firstn i urls))%list u = None) ->
  yields h (tr ++ map probe_request (firstn k urls))%list url = Some m ->
  probe h urls tr = (Returned (Some m), (tr ++ map probe_request (firstn (S k) urls))%list).
Proof.
  revert tr k; induction urls as [|u0 rest IH]; intros tr k Hnth Hbefore Hk.
  - destruct k; discriminate.
  - rewrite probe_cons. destruct k as [|k].
    + injection Hnth as ->. simpl in Hk. rewrite app_nil_r in Hk. rewrite Hk.
      destruct rest; reflexivity.
    + pose proof (Hbefore 0%nat u0 ltac:(lia) eq_refl) as H0.
      simpl in H0. rewrite app_nil_r in H0. rewrite H0.
      rewrite (IH (tr ++ [probe_request u0])%list k Hnth).
      * change (firstn (S (S k)) (u0 :: rest)) with (u0 :: firstn (S k) rest).
        simpl. now rewrite <- app_assoc.
      * intros i u Hi Hu. specialize (Hbefore (S i) u ltac:(lia) Hu).
        simpl in Hbefore. now rewrite <- app_assoc.
      * simpl in Hk. now rewrite <- app_assoc.
Qed.

Lemma probe_some_provenance (h : host) (urls : list string) (tr tr' : trace) (sid : string) :
  probe h urls tr = (Returned (Some sid), tr') ->
  exists url before,
    In url urls /\ tr' = (before ++ [probe_request url])%list
    /\ yields h before url = Some sid.
Proof.
  revert tr; induction urls as [|url rest IH]; intros tr.
  - simpl. unfold ret. discriminate.
  - rewrite probe_cons. destruct (yields h tr url) as [m|] eqn:E.
    + intros [= <- <-]. exists url, tr. repeat split; [now left | exact E].
    + intros H. destruct (IH _ H) as (u & before & Hin & Htr & Hy).
      exists u, before. repeat split; [now right | exact Htr | exact Hy].
Qed.

(** X5.  The Session Opener never throws and sends between one and three
    GET probes, the candidates in their fixed order; it reports no cookie
    only after all three were tried. *)
Theorem openSession_total_and_bounded :
  forall (h : host) (baseUrl : string) (tr : trace),
    exists o n,
      (1 <= n <= 3)%nat
      /\ openSession h baseUrl tr =
           (Returned o, (tr ++ map probe_request (firstn n (tries baseUrl)))%list)
      /\ (o = None -> n = 3%nat).
Proof.
  intros h baseUrl tr.
  destruct (probe_trace_prefix h (tries baseUrl) tr) as (o & n & Hn & Hrun & Hnone & Hpos).
  exists o, n. simpl in Hn. split; [|split; [exact Hrun | exact Hnone]].
  split; [apply Hpos; discriminate | exact Hn].
Qed.

(** X6.  First match wins: when the candidates before position [k] yield
    nothing (rejected fetch, no set-cookie header or no match) and
    candidate [k] yields a cookie, the Session Opener returns that cookie
    and has sent exactly the first [k + 1] probes. *)
Theorem openSession_first_match_wins :
  forall (h : host) (baseUrl : string) (tr : trace) (k : nat) (url m : string),
    nth_error (tries baseUrl) k = Some url ->
    (forall i u, (i < k)%nat -> nth_error (tries baseUrl) i = Some u ->
       yields h (tr ++ map probe_request (firstn i (tries baseUrl)))%list u = None) ->
    yields h (tr ++ map probe_request (firstn k (tries baseUrl)))%list url = Some m ->
    openSession h baseUrl tr =
      (Returned (Some m),
       (tr ++ map probe_request (firstn (S k) (tries baseUrl)))%list).
Proof.
  intros h baseUrl tr k url m. unfold openSession. apply probe_first_match.
Qed.

Lemma openSession_first_match_wins_witness :
  let h := Outage.server None in
  net h [] (probe_request "http://gesprov.test/") = None
  /\ openSession h Demo.base [] =
       (Returned (Some "PhpSessId=v1-77"), map probe_request (tries Demo.base)).
Proof.
  intros h. split; [reflexivity|].
  apply (openSession_first_match_wins h Demo.base [] 2 (Demo.base ++ "/ges-api/v1/")
           "PhpSessId=v1-77").
  - reflexivity.
  - intros [|[|i]] u Hi Hu; try lia; simpl in Hu; injection Hu as <-; reflexivity.
  - reflexivity.
Defined.

(** X7.  A cookie returned by the Session Opener is the pattern match on
    the answer to the last probe sent: the name PHPSESSID= in the letter
    case the upstream used, followed by a non-empty value without
    semicolon. *)
Theorem openSession_cookie_provenance :
  forall (h : host) (baseUrl : string) (tr tr' : trace) (sid : string),
    openSession h baseUrl tr = (Returned (Some sid), tr') ->
    (exists url before,
       In url (tries baseUrl) /\ tr' = (before ++ [probe_request url])%list
       /\ yields h before url = Some sid)
    /\ exists name value,
         sid = name ++ value
         /\ upcase_string name = "PHPSESSID="
         /\ value <> ""
         /\ string_forall not_semicolon value = true.
Proof.
  intros h baseUrl tr tr' sid Hopen.
  destruct (probe_some_provenance h _ tr tr' sid Hopen) as (url & before & Hin & Htr & Hy).
  split; [exists url, before; repeat split; assumption|].
  unfold yields in Hy.
  destruct (net h before (probe_request url)) as [r|]; [|discriminate].
  destruct (set_cookie r) as [c|]; [|discriminate].
  destruct (match_PHPSESSID_decompose c sid Hy) as (pre & suf & _ & Hm & _).
  destruct (match_here_sound suf sid Hm) as (name & value & rest & _ & -> & Hup & Hv & Hall & _).
  exists name, value. repeat split; assumption.
Qed.

Lemma openSession_cookie_provenance_witness :
  let h := Outage.server None in
  openSession h Demo.base [] =
    (Returned (Some "PhpSessId=v1-77"), map probe_request (tries Demo.base))
  /\ exists name value,
       "PhpSessId=v1-77" = name ++ value
       /\ upcase_string name = "PHPSESSID="
       /\ value <> ""
       /\ string_forall not_semicolon value = true.
Proof.
  intros h. split; [reflexivity|].
  apply (openSession_cookie_provenance h Demo.base []
           (map probe_request (tries Demo.base)) "PhpSessId=v1-77").
  reflexivity.
Defined.

(** ** Token Exchanger, continued *)

Lemma ok_false_not_2xx (r : response) : ok r = false -> not_2xx (status r).
Proof.
  unfold ok, not_2xx. intros H. apply andb_false_iff in H.
  destruct H as [H|H]; [left | right]; lia.
Qed.



(** A failed token exchange reports the upstream status of a non-2xx
    answer, 401 or 502, so never a 2xx status.  Both listings. *)
Lemma getToken_failure_status :
  forall (h : host) (baseUrl cookie : string) (tr tr2 : trace) (st : Z) (raw : json),
    V1.getToken h baseUrl cookie tr = (Returned (TokFail st raw), tr2)
    \/ V2.getToken h baseUrl cookie tr = (Returned (TokFail st raw), tr2) ->
    (exists r,
       net h tr (token_request h baseUrl cookie) = Some r
       /\ ((ok r = false /\ st = status r) \/ (ok r = true /\ (st = 401 \/ st = 502))))
    /\ not_2xx st.
Proof.
  intros h baseUrl cookie tr tr2 st raw.
  unfold V1.getToken, V2.getToken, bind, fetch, ret.
  destruct (net h tr (token_request h baseUrl cookie)) as [r|];
    [|intros [H|H]; discriminate].
  cbv beta iota zeta.
  intros [H|H]; revert H;
    (destruct (ok r) eqn:Hok; cbn [negb];
     [ destruct (truthy (Some (parse_or_null h (text r)) ?. "erro"));
       [ intros [= <- _ _]; split;
         [ exists r; split; [reflexivity | right; split; [exact Hok | now left]]
         | unfold not_2xx; lia ]
       | match goal with |- context [negb ?b] => destruct (negb b) end; [|discriminate];
         intros [= <- _ _]; split;
         [ exists r; split; [reflexivity | right; split; [exact Hok | now right]]
         | unfold not_2xx; lia ] ]
     | intros [= <- _ _]; split;
       [ exists r; split; [reflexivity | left; split; [exact Hok | reflexivity]]
       | now apply ok_false_not_2xx ] ]).
Qed.

Lemma getToken_ok_response (h : host) (baseUrl cookie : string) (tr tr2 : trace)
  (access_token token_type : jsval) :
  V1.getToken h baseUrl cookie tr = (Returned (TokOk access_token token_type), tr2)
  \/ V2.getToken h baseUrl cookie tr = (Returned (TokOk access_token token_type), tr2) ->
  exists r,
    net h tr (token_request h baseUrl cookie) = Some r /\ ok r = true
    /\ truthy (Some (parse_or_null h (text r)) ?. "erro") = false.
Proof.
  unfold V1.getToken, V2.getToken, bind, fetch, ret.
  destruct (net h tr (token_request h baseUrl cookie)) as [r|];
    [|intros [H|H]; discriminate].
  cbv beta iota zeta. exists r.
  destruct (ok r); cbn [negb] in *; [|destruct H; discriminate].
  destruct (truthy (Some (parse_or_null h (text r)) ?. "erro"));
    [destruct H; discriminate | repeat split].
Qed.

Lemma getToken_agree_on_success_conv (h : host) (baseUrl cookie : string) (tr tr2 : trace)
  (access_token token_type : jsval) :
  V1.getToken h baseUrl cookie tr = (Returned (TokOk access_token token_type), tr2) ->
  V2.getToken h baseUrl cookie tr = (Returned (TokOk access_token token_type), tr2).
Proof.
  unfold V1.getToken, V2.getToken, bind, fetch, ret.
  destruct (net h tr (token_request h baseUrl cookie)) as [r|]; [|discriminate].
  cbv beta iota zeta.
  destruct (negb (ok r)); [discriminate|].
  destruct (truthy (Some (parse_or_null h (text r)) ?. "erro")); [discriminate|].
  exact (fun H => H).
Qed.

(** ** Auth Cycle Coordinator, continued *)

Lemma fixed_cookie_nonempty (h : host) (c : string) : fixed_cookie h = Some c -> c <> "".
Proof.
  unfold fixed_cookie. destruct (truthy_str (GESPROV_PHPSESSID h)); [|discriminate].
  intros [= <-]. discriminate.
Qed.

Lemma fixed_cookie_none (h : host) :
  fixed_cookie h = None <-> truthy_str (GESPROV_PHPSESSID h) = false.
Proof.
  unfold fixed_cookie. destruct (truthy_str (GESPROV_PHPSESSID h)); split; congruence.
Qed.

Section AuthCycleFallback.

Variables (h : host) (tr tr' : trace) (c : string).
Hypothesis Hbase : base_url h <> "".
Hypothesis Hopen : openSession h (base_url h) tr = (Returned None, tr').
Hypothesis Hfixed : fixed_cookie h = Some c.

Lemma V1_authCycle_fallback :
  V1.authCycle h tr =
    match V1.getToken h (base_url h) c tr' with
    | (Returned (TokFail st raw), tr2) =>
        (Returned (V1.AuthFail st "Token failed" (Some raw)), tr2)
    | (Returned (TokOk access_token _), tr2) => (Returned (V1.AuthOk c access_token), tr2)
    | (Thrown, tr2) => (Thrown, tr2)
    end.
Proof.
  unfold V1.authCycle. rewrite (base_url_eqb h Hbase). fold (base_url h).
  rewrite bind_eq, Hopen. cbv beta iota. cbn [as_truthy].
  fold (fixed_cookie h). rewrite Hfixed.
  rewrite (as_truthy_nonempty c (fixed_cookie_nonempty h c Hfixed)).
  rewrite bind_eq.
  destruct (V1.getToken h (base_url h) c tr') as [[[st raw|a t]|] tr2]; reflexivity.
Qed.

Lemma V2_authCycle_fallback :
  truthy_str (GESPROV_CLIENT_ID h) = true ->
  truthy_str (GESPROV_CLIENT_SECRET h) = true ->
  V2.authCycle h tr =
    match V2.getToken h (base_url h) c tr' with
    | (Returned (TokFail st raw), tr2) =>
        (Returned (V2.AuthFail st "Token failed" (Some raw)), tr2)
    | (Returned (TokOk access_token token_type), tr2) =>
        (Returned (V2.AuthOk c access_token token_type), tr2)
    | (Thrown, tr2) => (Thrown, tr2)
    end.
Proof.
  intros Hid Hsec.
  unfold V2.authCycle. rewrite (base_url_eqb h Hbase). fold (base_url h).
  rewrite Hid, Hsec. cbn [negb orb].
  rewrite bind_eq, Hopen. cbv beta iota zeta. cbn [truthy_str].
  fold (fixed_cookie h). rewrite Hfixed.
  rewrite (as_truthy_nonempty c (fixed_cookie_nonempty h c Hfixed)).
  rewrite bind_eq.
  destruct (V2.getToken h (base_url h) c tr') as [[[st raw|a t]|] tr2]; reflexivity.
Qed.

End AuthCycleFallback.

(** The four ways through the later [authCycle]. *)
Lemma V2_authCycle_cases (h : host) (tr : trace) :
  (exists error,
     (base_url h = "" \/ truthy_str (GESPROV_CLIENT_ID h) = false
      \/ truthy_str (GESPROV_CLIENT_SECRET h) = false)
     /\ V2.authCycle h tr = (Returned (V2.AuthFail 500 error undefined), tr))
  \/ (base_url h <> "" /\ truthy_str (GESPROV_CLIENT_ID h) = true
      /\ truthy_str (GESPROV_CLIENT_SECRET h) = true
      /\ ((exists tr',
             openSession h (base_url h) tr = (Returned None, tr')
             /\ fixed_cookie h = None
             /\ V2.authCycle h tr =
                  (Returned
                     (V2.AuthFail 502 "Could not obtain PHPSESSID (session required)" undefined),
                   tr'))
          \/ (exists o c tr',
                openSession h (base_url h) tr = (Returned o, tr')
                /\ (o = Some c \/ (o = None /\ fixed_cookie h = Some c))
                /\ c <> ""
                /\ V2.authCycle h tr =
                     match V2.getToken h (base_url h) c tr' with
                     | (Returned (TokFail st raw), tr2) =>
                         (Returned (V2.AuthFail st "Token failed" (Some raw)), tr2)
                     | (Returned (TokOk access_token token_type), tr2) =>
                         (Returned (V2.AuthOk c access_token token_type), tr2)
                     | (Thrown, tr2) => (Thrown, tr2)
                     end))).
Proof.
  assert (Hconfig :
    base_url h = "" \/ truthy_str (GESPROV_CLIENT_ID h) = false
    \/ truthy_str (GESPROV_CLIENT_SECRET h) = false ->
    exists error,
      (base_url h = "" \/ truthy_str (GESPROV_CLIENT_ID h) = false
       \/ truthy_str (GESPROV_CLIENT_SECRET h) = false)
      /\ V2.authCycle h tr = (Returned (V2.AuthFail 500 error undefined), tr)).
  { intros H. destruct (V2_authCycle_config_error h tr H) as [e He]. now exists e. }
  destruct (string_dec (base_url h) "") as [Hb|Hb].
  { left. apply Hconfig. now left. }
  destruct (truthy_str (GESPROV_CLIENT_ID h)) eqn:Hid.
  2:{ left. apply Hconfig. right. now left. }
  destruct (truthy_str (GESPROV_CLIENT_SECRET h)) eqn:Hsec.
  2:{ left. apply Hconfig. right. right. reflexivity. }
  right. repeat split; try assumption.
  destruct (probe_returns h (tries (base_url h)) tr) as ([sid|] & tr' & Hopen).
  - right. exists (Some sid), sid, tr'. repeat split.
    + exact Hopen.
    + now left.
    + eapply probe_some_nonempty; exact Hopen.
    + exact (V2_authCycle_probed h tr tr' Hb sid Hid Hsec Hopen).
  - destruct (fixed_cookie h) as [c|] eqn:Hfixed.
    + right. exists None, c, tr'. repeat split.
      * exact Hopen.
      * right. now split.
      * exact (fixed_cookie_nonempty h c Hfixed).
      * exact (V2_authCycle_fallback h tr tr' c Hb Hopen Hfixed Hid Hsec).
    + left. exists tr'. repeat split; [exact Hopen|].
      apply fixed_cookie_none in Hfixed.
      exact (proj2 (authCycle_no_session h tr tr' Hb Hopen Hfixed) Hid Hsec).
Qed.

(** X9.  Fallback path: when all three probes yield nothing and a fixed
    session id is configured, [authCycle] sends the token request with the
    cookie PHPSESSID=<id> after the three probes, and an authenticated
    result holds that cookie.  Both listings. *)
Theorem authCycle_fallback_cookie :
  forall (h : host) (tr tr' : trace) (id : string),
    base_url h <> "" ->
    truthy_str (GESPROV_CLIENT_ID h) = true ->
    truthy_str (GESPROV_CLIENT_SECRET h) = true ->
    openSession h (base_url h) tr = (Returned None, tr') ->
    GESPROV_PHPSESSID h = Some id ->
    id <> "" ->
    tr' = (tr ++ map probe_request (tries (base_url h)))%list
    /\ (snd (V2.authCycle h tr) =
          (tr' ++ [token_request h (base_url h) ("PHPSESSID=" ++ id)])%list
        /\ forall c t tt tr2,
             V2.authCycle h tr = (Returned (V2.AuthOk c t tt), tr2) -> c = "PHPSESSID=" ++ id)
    /\ (snd (V1.authCycle h tr) =
          (tr' ++ [token_request h (base_url h) ("PHPSESSID=" ++ id)])%list
        /\ forall c t tr2,
             V1.authCycle h tr = (Returned (V1.AuthOk c t), tr2) -> c = "PHPSESSID=" ++ id).
Proof.
  intros h tr tr' id Hbase Hid Hsec Hopen Hfix Hne.
  assert (Hfixed : fixed_cookie h = Some ("PHPSESSID=" ++ id)).
  { unfold fixed_cookie. rewrite Hfix, (truthy_str_nonempty id Hne). reflexivity. }
  destruct (getToken_trace h (base_url h) ("PHPSESSID=" ++ id) tr') as [Ht1 Ht2].
  split; [exact (probe_none_trace h _ tr tr' Hopen)|]. split.
  - rewrite (V2_authCycle_fallback h tr tr' _ Hbase Hopen Hfixed Hid Hsec).
    destruct (V2.getToken h (base_url h) ("PHPSESSID=" ++ id) tr') as [[[st raw|a t]|] tr2];
      (split; [exact Ht2|]); intros c t0 tt tr3; try discriminate.
    now intros [= <- _ _ _].
  - rewrite (V1_authCycle_fallback h tr tr' _ Hbase Hopen Hfixed).
    destruct (V1.getToken h (base_url h) ("PHPSESSID=" ++ id) tr') as [[[st raw|a t]|] tr2];
      (split; [exact Ht1|]); intros c t0 tr3; try discriminate.
    now intros [= <- _ _].
Qed.

Lemma authCycle_fallback_cookie_witness :
  let h := Demo.server (Some "fixed-session") None Demo.token_ok None in
  openSession h (base_url h) [] = (Returned None, map probe_request (tries Demo.base))
  /\ V2.authCycle h [] =
       (Returned (V2.AuthOk "PHPSESSID=fixed-session" Demo.token (Some (JStr "Bearer"))),
        (map probe_request (tries Demo.base)
           ++ [token_request h Demo.base "PHPSESSID=fixed-session"])%list)
  /\ snd (V2.authCycle h []) =
       (map probe_request (tries Demo.base)
          ++ [token_request h (base_url h) ("PHPSESSID=" ++ "fixed-session")])%list.
Proof.
  intros h.
  assert (Hopen : openSession h (base_url h) [] =
                  (Returned None, map probe_request (tries Demo.base))) by reflexivity.
  split; [exact Hopen|]. split; [reflexivity|].
  destruct (authCycle_fallback_cookie h [] (map probe_request (tries Demo.base))
              "fixed-session") as (_ & (Hsent & _) & _);
    [discriminate | reflexivity | reflexivity | exact Hopen | reflexivity | discriminate
    | exact Hsent].
Defined.

(** X10.  What an authenticated context guarantees (later listing): the
    configuration is complete, the cookie is not empty, token and token
    type are truthy, and the last call made is the token request with
    that cookie, answered 2xx without error marker. *)
Theorem authCycle_authenticated_invariant :
  forall (h : host) (tr tr1 : trace) (cookie : string) (token token_type : jsval),
    V2.authCycle h tr = (Returned (V2.AuthOk cookie token token_type), tr1) ->
    base_url h <> ""
    /\ truthy_str (GESPROV_CLIENT_ID h) = true
    /\ truthy_str (GESPROV_CLIENT_SECRET h) = true
    /\ cookie <> ""
    /\ truthy token = true
    /\ truthy token_type = true
    /\ exists tr' r,
         tr1 = (tr' ++ [token_request h (base_url h) cookie])%list
         /\ net h tr' (token_request h (base_url h) cookie) = Some r
         /\ ok r = true
         /\ truthy (Some (parse_or_null h (text r)) ?. "erro") = false.
Proof.
  intros h tr tr1 cookie token token_type Hauth.
  destruct (V2_authCycle_cases h tr)
    as [(e & _ & Hrun) | (Hb & Hid & Hsec & [(tr' & _ & _ & Hrun) | (o & c & tr' & _ & _ & Hc & Hrun)])];
    try congruence.
  rewrite Hrun in Hauth.
  destruct (V2.getToken h (base_url h) c tr') as [[[st raw|a t]|] tr2] eqn:Et;
    try discriminate.
  injection Hauth as -> -> -> ->.
  destruct (getToken_ok_truthy h _ _ _ _ _ _ (or_intror Et)) as [Ht Htt].
  destruct (getToken_ok_response h _ _ _ _ _ _ (or_intror Et)) as (r & Hnet & Hok & Herro).
  repeat split; try assumption.
  exists tr', r. repeat split; try assumption.
  pose proof (proj2 (getToken_trace h (base_url h) cookie tr')) as Htr.
  rewrite Et in Htr. exact Htr.
Qed.

Lemma authCycle_authenticated_invariant_witness :
  let h := Demo.server None Demo.session_header Demo.token_ok None in
  V2.authCycle h [] =
    (Returned (V2.AuthOk Demo.cookie Demo.token (Some (JStr "Bearer"))), Demo.handshake)
  /\ Demo.cookie <> "" /\ truthy Demo.token = true.
Proof.
  intros h.
  assert (Hauth : V2.authCycle h [] =
    (Returned (V2.AuthOk Demo.cookie Demo.token (Some (JStr "Bearer"))), Demo.handshake))
    by reflexivity.
  split; [exact Hauth|].
  destruct (authCycle_authenticated_invariant h [] Demo.handshake Demo.cookie Demo.token
              (Some (JStr "Bearer")) Hauth) as (_ & _ & _ & Hc & Ht & _).
  split; [exact Hc | exact Ht].
Defined.

(** X11.  Anatomy of a failed auth cycle (later listing): a configuration
    error (500, nothing sent, no detail), an unobtainable session (502
    after the three probes, no detail), or the failure of the token
    exchange passed on verbatim, status and detail, under the error text
    "Token failed".  In no case is the status a 2xx one. *)
Theorem authCycle_failure_anatomy :
  forall (h : host) (tr tr2 : trace) (st : Z) (error : string) (raw : jsval),
    V2.authCycle h tr = (Returned (V2.AuthFail st error raw), tr2) ->
    ((st = 500 /\ raw = undefined /\ tr2 = tr
      /\ (base_url h = "" \/ truthy_str (GESPROV_CLIENT_ID h) = false
          \/ truthy_str (GESPROV_CLIENT_SECRET h) = false))
     \/ (st = 502 /\ raw = undefined
         /\ tr2 = (tr ++ map probe_request (tries (base_url h)))%list
         /\ truthy_str (GESPROV_PHPSESSID h) = false)
     \/ (error = "Token failed"
         /\ exists cookie tr' detail,
              raw = Some detail
              /\ V2.getToken h (base_url h) cookie tr' = (Returned (TokFail st detail), tr2)))
    /\ not_2xx st.
Proof.
  intros h tr tr2 st error raw Hauth.
  destruct (V2_authCycle_cases h tr)
    as [(e & Hcfg & Hrun) | (Hb & Hid & Hsec & [(tr' & Hopen & Hfx & Hrun) | (o & c & tr' & _ & _ & Hc & Hrun)])];
    rewrite Hrun in Hauth.
  - injection Hauth as <- <- <- <-. split; [|unfold not_2xx; lia].
    left. repeat split. exact Hcfg.
  - injection Hauth as <- <- <- <-. split; [|unfold not_2xx; lia].
    right. left. repeat split.
    + exact (probe_none_trace h _ tr tr' Hopen).
    + now apply fixed_cookie_none.
  - destruct (V2.getToken h (base_url h) c tr') as [[[st' detail|a t]|] tr3] eqn:Et;
      try discriminate.
    injection Hauth as <- <- <- <-.
    split.
    + right. right. split; [reflexivity|]. exists c, tr', detail. split; [reflexivity | exact Et].
    + exact (proj2 (getToken_failure_status h _ _ _ _ _ _ (or_intror Et))).
Qed.

Lemma authCycle_failure_anatomy_witness :
  let h := Demo.server None Demo.session_header (Some (mkResponse 503 None "DOWN")) None in
  V2.authCycle h [] =
    (Returned (V2.AuthFail 503 "Token failed" (Some (JObj [("message", JStr "maintenance")]))),
     Demo.handshake)
  /\ not_2xx 503.
Proof.
  intros h.
  assert (Hauth : V2.authCycle h [] =
    (Returned (V2.AuthFail 503 "Token failed" (Some (JObj [("message", JStr "maintenance")]))),
     Demo.handshake)) by reflexivity.
  split; [exact Hauth|].
  exact (proj2 (authCycle_failure_anatomy h [] Demo.handshake 503 "Token failed"
                  (Some (JObj [("message", JStr "maintenance")])) Hauth)).
Defined.


(** X13.  With credentials configured the two listings authenticate in
    exactly the same runs, with the same cookie, token and calls; the
    later one adds the token type. *)
Theorem authCycle_listings_agree :
  forall (h : host) (tr tr1 : trace) (cookie : string) (token : jsval),
    truthy_str (GESPROV_CLIENT_ID h) = true ->
    truthy_str (GESPROV_CLIENT_SECRET h) = true ->
    (V1.authCycle h tr = (Returned (V1.AuthOk cookie token), tr1)
     <-> exists token_type,
           V2.authCycle h tr = (Returned (V2.AuthOk cookie token token_type), tr1)).
Proof.
  intros h tr tr1 cookie token Hid Hsec. split.
  - intros H1.
    destruct (V2_authCycle_cases h tr)
      as [(e & Hcfg & _) | (Hb & _ & _ & [(tr' & Hopen & Hfx & _) | (o & c & tr' & Hopen & Ho & Hc & Hrun)])].
    + destruct Hcfg as [Hb | [Hx | Hx]]; [|congruence|congruence].
      rewrite (V1_authCycle_no_base_url h tr Hb) in H1. discriminate.
    + apply fixed_cookie_none in Hfx.
      rewrite (proj1 (authCycle_no_session h tr tr' Hb Hopen Hfx)) in H1. discriminate.
    + assert (Hrun1 : V1.authCycle h tr =
        match V1.getToken h (base_url h) c tr' with
        | (Returned (TokFail st raw), tr2) =>
            (Returned (V1.AuthFail st "Token failed" (Some raw)), tr2)
        | (Returned (TokOk access_token _), tr2) => (Returned (V1.AuthOk c access_token), tr2)
        | (Thrown, tr2) => (Thrown, tr2)
        end).
      { destruct Ho as [-> | [-> Hfx]].
        - exact (V1_authCycle_probed h tr tr' Hb c Hopen).
        - exact (V1_authCycle_fallback h tr tr' c Hb Hopen Hfx). }
      rewrite Hrun1 in H1. rewrite Hrun.
      destruct (V1.getToken h (base_url h) c tr') as [[[st raw|a t]|] tr2] eqn:Et;
        try discriminate.
      injection H1 as -> -> ->.
      rewrite (getToken_agree_on_success_conv _ _ _ _ _ _ _ Et).
      now exists t.
  - intros [tt H2]. exact (authCycle_agree_on_success h tr tr1 cookie token tt H2).
Qed.

Lemma authCycle_listings_agree_witness :
  let h := Demo.server None Demo.session_header Demo.token_ok None in
  V1.authCycle h [] = (Returned (V1.AuthOk Demo.cookie Demo.token), Demo.handshake)
  /\ exists token_type,
       V2.authCycle h [] = (Returned (V2.AuthOk Demo.cookie Demo.token token_type), Demo.handshake).
Proof.
  intros h.
  assert (H1 : V1.authCycle h [] = (Returned (V1.AuthOk Demo.cookie Demo.token), Demo.handshake))
    by reflexivity.
  split; [exact H1|].
  exact (proj1 (authCycle_listings_agree h [] Demo.handshake Demo.cookie Demo.token
                  eq_refl eq_refl) H1).
Defined.

(** ** Proxy key and request validation *)

(** X14.  The proxy key check passes exactly when no key is configured
    (unset or empty), or the x-api-key header equals the key, or that
    header is absent or empty and the api_key header equals the key; a
    wrong x-api-key is not rescued by a right api_key. *)
Theorem requireKey_passes_iff :
  forall (h : host) (req : inbound),
    requireKey h req = KeyOk <->
    truthy_str (PROXY_API_KEY h) = false
    \/ exists key,
         PROXY_API_KEY h = Some key /\ key <> ""
         /\ (header_x_api_key req = Some key
             \/ (truthy_str (header_x_api_key req) = false /\ header_api_key req = Some key)).
Proof.
  intros h req. unfold requireKey.
  destruct (PROXY_API_KEY h) as [key|]; cbn [truthy_str negb]; [|split; [now left | reflexivity]].
  destruct (String.eqb_spec key "") as [->|Hkey]; cbn [negb]; [split; [now left | reflexivity]|].
  assert (Heq : forall o, strict_eq_str o (Some key) = true <-> o = Some key).
  { intros [x|]; simpl; [|split; discriminate].
    rewrite String.eqb_eq. split; congruence. }
  destruct (truthy_str (header_x_api_key req)) eqn:Hx.
  - destruct (strict_eq_str (header_x_api_key req) (Some key)) eqn:E; cbn [negb].
    + split; [|reflexivity]. intros _. right. exists key. apply Heq in E. tauto.
    + split; [discriminate|]. intros [H | (k & [= <-] & _ & [H | [H _]])]; try discriminate.
      apply Heq in H. congruence.
  - destruct (strict_eq_str (header_api_key req) (Some key)) eqn:E; cbn [negb].
    + split; [|reflexivity]. intros _. right. exists key. apply Heq in E. tauto.
    + split; [discriminate|]. intros [H | (k & [= <-] & _ & [H | [_ H]])]; try discriminate.
      * rewrite H in Hx. simpl in Hx. destruct (String.eqb_spec key ""); [contradiction | discriminate].
      * apply Heq in H. congruence.
Qed.

(** X15.  A request that fails the key check is answered 401 by every
    route of both listings, and nothing is sent upstream. *)
Theorem routes_reject_invalid_key :
  forall (h : host) (req : inbound) (tr : trace),
    requireKey h req <> KeyOk ->
    let unauthorized :=
      (Returned (mkReply 401 (JObj [("error", JStr "Unauthorized (invalid proxy key)")])), tr) in
    V2.post_gesprov_auth h req tr = unauthorized
    /\ V2.post_gesprov_cliente h req tr = unauthorized
    /\ V2.post_gesprov_faturas h req tr = unauthorized
    /\ V1.post_gesprov_auth h req tr = unauthorized
    /\ V1.post_gesprov_cliente h req tr = unauthorized.
Proof.
  intros h req tr Hkey unauthorized.
  assert (Hrej : requireKey h req =
                 KeyRejected (mkReply 401 (JObj [("error", JStr "Unauthorized (invalid proxy key)")]))).
  { revert Hkey. unfold requireKey.
    destruct (negb (truthy_str (PROXY_API_KEY h))); [congruence|].
    destruct (negb (strict_eq_str _ _)); [reflexivity | congruence]. }
  unfold V2.post_gesprov_auth, V2.post_gesprov_cliente, V2.post_gesprov_faturas,
    V1.post_gesprov_auth, V1.post_gesprov_cliente.
  rewrite Hrej. repeat split.
Qed.

Lemma routes_reject_invalid_key_witness :
  let h := Outage.server None in
  let req := mkInbound (Some "wrong") (Some "k3y") (Some (JObj [("cpf_cnpj", JStr "1")])) in
  V2.post_gesprov_faturas h req [] =
    (Returned (mkReply 401 (JObj [("error", JStr "Unauthorized (invalid proxy key)")])), []).
Proof.
  intros h req.
  destruct (routes_reject_invalid_key h req []) as (_ & _ & Hf & _);
    [discriminate | exact Hf].
Defined.

(** X16.  With the key check passed, a body without a truthy cpf_cnpj
    (missing body, missing property, null, empty text, zero, false) is
    answered 400 by both business routes, before anything is sent. *)
Theorem routes_require_cpf_cnpj :
  forall (h : host) (req : inbound) (tr : trace),
    requireKey h req = KeyOk ->
    truthy (body_field req "cpf_cnpj") = false ->
    let bad_request :=
      (Returned (mkReply 400 (JObj [("error", JStr "cpf_cnpj obrigatório")])), tr) in
    V2.post_gesprov_cliente h req tr = bad_request
    /\ V2.post_gesprov_faturas h req tr = bad_request
    /\ V1.post_gesprov_cliente h req tr = bad_request.
Proof.
  intros h req tr Hkey Hcpf bad_request.
  unfold V2.post_gesprov_cliente, V2.post_gesprov_faturas, V1.post_gesprov_cliente, try_catch.
  rewrite Hkey. cbv zeta. unfold body_field in Hcpf. rewrite Hcpf. repeat split.
Qed.

Lemma routes_require_cpf_cnpj_witness :
  let h := Demo.server None Demo.session_header Demo.token_ok None in
  let req := mkInbound None None (Some (JObj [("cpf_cnpj", JStr "")])) in
  V2.post_gesprov_cliente h req [] =
    (Returned (mkReply 400 (JObj [("error", JStr "cpf_cnpj obrigatório")])), []).
Proof.
  intros h req.
  destruct (routes_require_cpf_cnpj h req []) as (Hc & _);
    [reflexivity | reflexivity | exact Hc].
Defined.

(** ** The routes, continued *)


Lemma gesprovPost_rejected (h : host) (endpoint cookie : string) (token bodyObj : jsval)
  (contentType : string) (tr : trace) :
  prints h token = true ->
  net h tr
    (V2.gesprov_request
       (base_url h ++ (if starts_with_slash endpoint then "" else "/") ++ endpoint)
       contentType cookie (printed h token) (nullish bodyObj (JObj []))) = None ->
  V2.gesprovPost h endpoint cookie token bodyObj contentType tr =
  (Thrown,
   (tr ++ [V2.gesprov_request
             (base_url h ++ (if starts_with_slash endpoint then "" else "/") ++ endpoint)
             contentType cookie (printed h token) (nullish bodyObj (JObj []))])%list).
Proof.
  intros Htoken Hnet. unfold V2.gesprovPost. fold (base_url h).
  rewrite (prints_printed h token Htoken), bind_or_throw_some.
  unfold bind, fetch, ret.
  destruct (String.eqb contentType "application/json"); rewrite Hnet; reflexivity.
Qed.

(** The bearer template throws before anything is sent. *)
Lemma gesprovPost_unprintable (h : host) (endpoint cookie : string) (token bodyObj : jsval)
  (contentType : string) (tr : trace) :
  prints h token = false ->
  V2.gesprovPost h endpoint cookie token bodyObj contentType tr = (Thrown, tr).
Proof.
  intros Htoken. unfold V2.gesprovPost.
  rewrite (not_prints h token Htoken), bind_or_throw_none. reflexivity.
Qed.

(** String() prints everything but an object with a property named
    toString, alone or inside an array. *)
Lemma prints_cases (h : host) :
  prints h undefined = true
  /\ prints h (Some JNull) = true
  /\ (forall b, prints h (Some (JBool b)) = true)
  /\ (forall n, prints h (Some (JNum n)) = true)
  /\ (forall s, prints h (Some (JStr s)) = true)
  /\ (forall fields,
        prints h (Some (JObj fields)) = true <-> assoc "toString" fields = None)
  /\ (forall items,
        prints h (Some (JArr items)) = true <->
        forall x, In x items -> prints h (Some x) = true).
Proof.
  unfold prints, String_of, tpl_val.
  split; [reflexivity|]. split; [reflexivity|].
  split; [intros [|]; reflexivity|]. split; [reflexivity|]. split; [reflexivity|].
  split.
  - intros fields. cbn [js_String].
    destruct (assoc "toString" fields); split; congruence.
  - intros items. cbn [js_String].
    induction items as [|x items IH]; cbn [map all_some].
    + split; [intros _ x [] | reflexivity].
    + assert (Hx : match x with JNull => Some "" | _ => js_String (Number_toString h) x end
                   = None <-> js_String (Number_toString h) x = None).
      { destruct x; split; try discriminate; intros H; exact H. }
      destruct (match x with JNull => Some "" | _ => js_String (Number_toString h) x end)
        as [t|] eqn:Ex.
      * assert (Hpx : js_String (Number_toString h) x <> None).
        { intros Hn. apply Hx in Hn. discriminate. }
        destruct (all_some _) as [ts|].
        -- split; [|reflexivity]. intros _ y [<- | Hy].
           ++ destruct (js_String (Number_toString h) x); [reflexivity | contradiction].
           ++ now apply (proj1 IH eq_refl).
        -- split; [discriminate|]. intros H.
           apply (proj2 IH). intros y Hy. apply H. now right.
      * split; [discriminate|]. intros H.
        specialize (H x (or_introl eq_refl)).
        rewrite (proj1 Hx eq_refl) in H. discriminate.
Qed.

Section RouteOutcomes.

Variables (h : host) (req : inbound) (tr : trace).
Hypothesis Hkey : requireKey h req = KeyOk.
Hypothesis Hcpf : truthy (body_field req "cpf_cnpj") = true.

Ltac enter_cliente :=
  unfold V2.post_gesprov_cliente; rewrite Hkey; cbv zeta;
  unfold body_field in Hcpf; rewrite Hcpf; cbn [negb]; rewrite bind_eq.

Ltac enter_faturas :=
  unfold V2.post_gesprov_faturas; rewrite Hkey; unfold try_catch; cbv zeta;
  unfold body_field in Hcpf; rewrite Hcpf; cbn [negb]; rewrite bind_eq.


(** X18.  The faturas route answers a rejected upstream call with the
    generic 500 reply, whether the token POST or the business POST was
    rejected (the business POST being reached with a cpf_cnpj and a token
    that String() prints). *)
Theorem faturas_rejected_fetch_is_500 :
  forall (tr1 : trace),
    (V2.authCycle h tr = (Thrown, tr1)
     \/ exists cookie token token_type tr0,
          V2.authCycle h tr = (Returned (V2.AuthOk cookie token token_type), tr0)
          /\ prints h (body_field req "cpf_cnpj") = true
          /\ prints h token = true
          /\ net h tr0 (faturas_call h req cookie token) = None
          /\ tr1 = (tr0 ++ [faturas_call h req cookie token])%list) ->
    V2.post_gesprov_faturas h req tr =
      (Returned (mkReply 500 (JObj [("error", JStr "Erro interno no proxy ao buscar faturas.")])),
       tr1).
Proof.
  intros tr1
    [Hauth | (cookie & token & token_type & tr0 & Hauth & Hprint & Htoken & Hnet & ->)];
    [enter_faturas; rewrite Hauth; reflexivity|].
  pose proof (prints_printed _ _ Hprint) as Hcpf_text. unfold body_field in Hcpf_text.
  enter_faturas. rewrite Hauth. cbv beta iota.
  rewrite Hcpf_text, bind_or_throw_some, bind_eq.
  erewrite gesprovPost_rejected by first [exact Htoken | exact Hnet]. reflexivity.
Qed.

(** X19.  The cliente route has no such guard: when its business POST is
    rejected the handler throws and no reply is sent (the business POST
    being reached with a cpf_cnpj and a token that String() prints).  Both
    listings. *)
Theorem cliente_rejected_fetch_unanswered :
  forall (cookie : string) (token token_type : jsval) (tr1 : trace),
    V2.authCycle h tr = (Returned (V2.AuthOk cookie token token_type), tr1) ->
    prints h (body_field req "cpf_cnpj") = true ->
    prints h token = true ->
    net h tr1 (cliente_call h req cookie token) = None ->
    net h tr1 (cliente_call_v1 h req cookie token) = None ->
    V2.post_gesprov_cliente h req tr = (Thrown, (tr1 ++ [cliente_call h req cookie token])%list)
    /\ V1.post_gesprov_cliente h req tr =
         (Thrown, (tr1 ++ [cliente_call_v1 h req cookie token])%list).
Proof.
  intros cookie token token_type tr1 Hauth Hprint Htoken Hnet Hnet1.
  pose proof (prints_printed _ _ Hprint) as Hcpf_text. unfold body_field in Hcpf_text.
  split.
  - enter_cliente. rewrite Hauth. cbv beta iota.
    rewrite Hcpf_text, bind_or_throw_some, bind_eq.
    erewrite gesprovPost_rejected by first [exact Htoken | exact Hnet]. reflexivity.
  - pose proof (authCycle_agree_on_success h tr tr1 cookie token token_type Hauth) as Hauth1.
    destruct (V1_authenticated_has_url h tr tr1 cookie token Hauth1) as [u EU].
    unfold cliente_call_v1, body_field in *. rewrite EU in Hnet1 |- *. cbn [tpl] in Hnet1 |- *.
    unfold V1.post_gesprov_cliente. rewrite Hkey. cbv zeta. rewrite Hcpf. cbn [negb].
    rewrite bind_eq, Hauth1. cbv beta iota. rewrite EU.
    rewrite Hcpf_text, bind_or_throw_some.
    rewrite (prints_printed _ _ Htoken), bind_or_throw_some.
    rewrite bind_eq. unfold fetch at 1. rewrite Hnet1. reflexivity.
Qed.

(** X20.  A cpf_cnpj or a token that String() cannot print (an object with
    a property named toString) makes the conversion throw after the auth
    cycle and before the business call: the faturas route catches it and
    replies the generic 500, the cliente route throws and sends no reply.
    Both listings. *)
Theorem unprintable_value_throws :
  forall (cookie : string) (token token_type : jsval) (tr1 : trace),
    V2.authCycle h tr = (Returned (V2.AuthOk cookie token token_type), tr1) ->
    prints h (body_field req "cpf_cnpj") = false \/ prints h token = false ->
    V2.post_gesprov_faturas h req tr =
      (Returned (mkReply 500 (JObj [("error", JStr "Erro interno no proxy ao buscar faturas.")])),
       tr1)
    /\ V2.post_gesprov_cliente h req tr = (Thrown, tr1)
    /\ V1.post_gesprov_cliente h req tr = (Thrown, tr1).
Proof.
  intros cookie token token_type tr1 Hauth Hbad.
  pose proof (authCycle_agree_on_success h tr tr1 cookie token token_type Hauth) as Hauth1.
  destruct (V1_authenticated_has_url h tr tr1 cookie token Hauth1) as [u EU].
  destruct (prints h (body_field req "cpf_cnpj")) eqn:Hprint.
  - destruct Hbad as [Hbad | Htoken]; [discriminate|].
    pose proof (prints_printed _ _ Hprint) as Hcpf_text. unfold body_field in Hcpf_text.
    split; [|split].
    + enter_faturas. rewrite Hauth. cbv beta iota.
      rewrite Hcpf_text, bind_or_throw_some, bind_eq.
      rewrite (gesprovPost_unprintable _ _ _ _ _ _ _ Htoken). reflexivity.
    + enter_cliente. rewrite Hauth. cbv beta iota.
      rewrite Hcpf_text, bind_or_throw_some, bind_eq.
      rewrite (gesprovPost_unprintable _ _ _ _ _ _ _ Htoken). reflexivity.
    + unfold V1.post_gesprov_cliente. rewrite Hkey. cbv zeta.
      unfold body_field in Hcpf. rewrite Hcpf. cbn [negb].
      rewrite bind_eq, Hauth1. cbv beta iota. rewrite EU.
      rewrite Hcpf_text, bind_or_throw_some.
      rewrite (not_prints _ _ Htoken), bind_or_throw_none. reflexivity.
  - pose proof (not_prints _ _ Hprint) as Hcpf_text. unfold body_field in Hcpf_text.
    split; [|split].
    + enter_faturas. rewrite Hauth. cbv beta iota.
      rewrite Hcpf_text, bind_or_throw_none. reflexivity.
    + enter_cliente. rewrite Hauth. cbv beta iota.
      rewrite Hcpf_text, bind_or_throw_none. reflexivity.
    + unfold V1.post_gesprov_cliente. rewrite Hkey. cbv zeta.
      unfold body_field in Hcpf. rewrite Hcpf. cbn [negb].
      rewrite bind_eq, Hauth1. cbv beta iota. rewrite EU.
      rewrite Hcpf_text, bind_or_throw_none. reflexivity.
Qed.

End RouteOutcomes.

Lemma unprintable_value_throws_witness :
  let h := Demo.server None Demo.session_header Demo.token_ok
             (Some (mkResponse 200 None "CLIENTE")) in
  let req := mkInbound None None (Some (JObj [("cpf_cnpj", JObj [("toString", JNum 1)])])) in
  truthy (body_field req "cpf_cnpj") = true
  /\ String_of h (body_field req "cpf_cnpj") = None
  /\ V2.post_gesprov_faturas h req [] =
       (Returned (mkReply 500 (JObj [("error", JStr "Erro interno no proxy ao buscar faturas.")])),
        Demo.handshake)
  /\ V2.post_gesprov_cliente h req [] = (Thrown, Demo.handshake).
Proof.
  intros h req. split; [reflexivity|]. split; [reflexivity|].
  destruct (unprintable_value_throws h req [] eq_refl eq_refl Demo.cookie Demo.token
              (Some (JStr "Bearer")) Demo.handshake eq_refl (or_introl eq_refl))
    as (Hf & Hc & _).
  split; [exact Hf | exact Hc].
Defined.


Lemma faturas_rejected_fetch_is_500_witness :
  let h := Demo.server None Demo.session_header Demo.token_ok None in
  net h Demo.handshake (faturas_call h Demo.req Demo.cookie Demo.token) = None
  /\ V2.post_gesprov_faturas h Demo.req [] =
       (Returned (mkReply 500 (JObj [("error", JStr "Erro interno no proxy ao buscar faturas.")])),
        (Demo.handshake ++ [faturas_call h Demo.req Demo.cookie Demo.token])%list).
Proof.
  intros h. split; [reflexivity|].
  apply (faturas_rejected_fetch_is_500 h Demo.req [] eq_refl eq_refl).
  right. exists Demo.cookie, Demo.token, (Some (JStr "Bearer")), Demo.handshake.
  repeat split.
Defined.

Lemma cliente_rejected_fetch_unanswered_witness :
  let h := Demo.server None Demo.session_header Demo.token_ok None in
  net h Demo.handshake (cliente_call h Demo.req Demo.cookie Demo.token) = None
  /\ V2.post_gesprov_cliente h Demo.req [] =
       (Thrown, (Demo.handshake ++ [cliente_call h Demo.req Demo.cookie Demo.token])%list).
Proof.
  intros h. split; [reflexivity|].
  exact (proj1 (cliente_rejected_fetch_unanswered h Demo.req [] eq_refl eq_refl
                  Demo.cookie Demo.token (Some (JStr "Bearer")) Demo.handshake
                  eq_refl eq_refl eq_refl eq_refl eq_refl)).
Defined.

Section RouteSuccess.

Variables (h : host) (req : inbound) (tr tr1 : trace).
Variables (cookie : string) (token token_type : jsval) (r : response).
Hypothesis Hkey : requireKey h req = KeyOk.
Hypothesis Hcpf : truthy (body_field req "cpf_cnpj") = true.
Hypothesis Hprint : prints h (body_field req "cpf_cnpj") = true.
Hypothesis Htoken : prints h token = true.
Hypothesis Hauth : V2.authCycle h tr = (Returned (V2.AuthOk cookie token token_type), tr1).
Hypothesis Hok : ok r = true.
Hypothesis Herro : truthy (Some (parse_or_null h (text r)) ?. "erro") = false.

Local Abbreviation payload := (parse_or_null h (text r)).

(** X21.  On a 2xx answer without error marker the faturas route replies
    200 with [{success: true, faturas}], where [faturas] is the first
    truthy of the payload's [titulos], [faturas] and [data], and the whole
    payload when none is.  The business call is reached with a cpf_cnpj
    and a token that String() prints. *)
Theorem faturas_extraction_order :
  net h tr1 (faturas_call h req cookie token) = Some r ->
  exists j,
    V2.post_gesprov_faturas h req tr =
      (Returned (mkReply 200 (JObj [("success", JBool true); ("faturas", j)])),
       (tr1 ++ [faturas_call h req cookie token])%list)
    /\ match first_match
               [Some payload ?. "titulos"; Some payload ?. "faturas"; Some payload ?. "data"]
       with
       | Some found => found = Some j
       | None => j = payload
       end.
Proof.
  intros Hnet.
  rewrite (faturas_success h req tr tr1 cookie token r Hkey Hcpf Hprint Htoken token_type Hauth Hnet Herro Hok).
  pose proof (js_or3_first_match (Some payload ?. "titulos") (Some payload ?. "faturas")
                (Some payload ?. "data")) as H3.
  unfold js_or at 1.
  destruct (truthy (Some payload ?. "titulos" ||| Some payload ?. "faturas"
                      ||| Some payload ?. "data")) eqn:E.
  - rewrite H3.
    destruct (Some payload ?. "titulos" ||| Some payload ?. "faturas" ||| Some payload ?. "data")
      as [j|]; [|discriminate].
    exists j. split; reflexivity.
  - rewrite H3. exists payload. split; reflexivity.
Qed.

(** X22.  On a 2xx answer whose body parsed to a value other than null,
    without error marker, the cliente route passes the payload through
    unchanged with status 200.  Both listings; the business call is
    reached with a cpf_cnpj and a token that String() prints. *)
Theorem cliente_payload_passthrough :
  net h tr1 (cliente_call h req cookie token) = Some r ->
  net h tr1 (cliente_call_v1 h req cookie token) = Some r ->
  payload <> JNull ->
  V2.post_gesprov_cliente h req tr =
    (Returned (mkReply 200 payload), (tr1 ++ [cliente_call h req cookie token])%list)
  /\ V1.post_gesprov_cliente h req tr =
    (Returned (mkReply 200 payload), (tr1 ++ [cliente_call_v1 h req cookie token])%list).
Proof.
  intros Hnet Hnet1 Hnonnull.
  rewrite (cliente_passthrough h req tr tr1 cookie token r Hkey Hcpf Hprint Htoken token_type Hauth Hnet
             Herro Hok).
  rewrite (V1_cliente_passthrough h req tr tr1 cookie token r Hkey Hcpf Hprint Htoken
             (authCycle_agree_on_success _ _ _ _ _ _ Hauth) Hnet1 Herro Hok).
  destruct payload; try contradiction; split; reflexivity.
Qed.

End RouteSuccess.

Lemma faturas_extraction_order_witness :
  let r := mkResponse 200 None "CLIENTE" in
  let h := Demo.server None Demo.session_header Demo.token_ok (Some r) in
  exists j,
    V2.post_gesprov_faturas h Demo.req [] =
      (Returned (mkReply 200 (JObj [("success", JBool true); ("faturas", j)])),
       (Demo.handshake ++ [faturas_call h Demo.req Demo.cookie Demo.token])%list)
    /\ j = JObj [("nome", JStr "Maria")].
Proof.
  intros r h.
  destruct (faturas_extraction_order h Demo.req [] Demo.handshake Demo.cookie Demo.token
              (Some (JStr "Bearer")) r eq_refl eq_refl eq_refl eq_refl eq_refl eq_refl
              eq_refl eq_refl)
    as (j & Hrun & Hj).
  exists j. split; [exact Hrun | exact Hj].
Defined.

Lemma cliente_payload_passthrough_witness :
  let r := mkResponse 200 None "CLIENTE" in
  let h := Demo.server None Demo.session_header Demo.token_ok (Some r) in
  V2.post_gesprov_cliente h Demo.req [] =
    (Returned (mkReply 200 (JObj [("nome", JStr "Maria")])),
     (Demo.handshake ++ [cliente_call h Demo.req Demo.cookie Demo.token])%list).
Proof.
  intros r h.
  refine (proj1 (cliente_payload_passthrough h Demo.req [] Demo.handshake Demo.cookie Demo.token
                   (Some (JStr "Bearer")) r eq_refl eq_refl eq_refl eq_refl eq_refl
                   eq_refl eq_refl eq_refl eq_refl _)).
  discriminate.
Defined.

(** ** Upstream requests of the business routes *)




Lemma String_of_prints (h : host) (v : jsval) (t : string) :
  String_of h v = Some t -> prints h v = true /\ printed h v = t.
Proof. unfold prints, printed. intros ->. now split. Qed.

Section UpstreamRequests.

Variables (h : host) (req : inbound) (tr tr1 : trace).
Variables (cookie : string) (token token_type : jsval).
Variables (cpf_text token_text : string).
Hypothesis Hkey : requireKey h req = KeyOk.
Hypothesis Hcpf : truthy (body_field req "cpf_cnpj") = true.
Hypothesis Hauth : V2.authCycle h tr = (Returned (V2.AuthOk cookie token token_type), tr1).
Hypothesis Hcpf_text : String_of h (body_field req "cpf_cnpj") = Some cpf_text.
Hypothesis Htoken_text : String_of h token = Some token_text.

Lemma V2_cliente_trace :
  snd (V2.post_gesprov_cliente h req tr) = (tr1 ++ [cliente_call h req cookie token])%list.
Proof.
  destruct (String_of_prints _ _ _ Hcpf_text) as [Hprint _].
  destruct (String_of_prints _ _ _ Htoken_text) as [Htoken _].
  destruct (net h tr1 (cliente_call h req cookie token)) as [r|] eqn:Hnet.
  - destruct (truthy (Some (parse_or_null h (text r)) ?. "erro")) eqn:He.
    + now rewrite (cliente_business_error h req tr tr1 cookie token r Hkey Hcpf Hprint Htoken
                     token_type Hauth Hnet He).
    + destruct (ok r) eqn:Hok.
      * now rewrite (cliente_passthrough h req tr tr1 cookie token r Hkey Hcpf Hprint Htoken
                       token_type Hauth Hnet He Hok).
      * now rewrite (cliente_transport_failure h req tr tr1 cookie token r Hkey Hcpf Hprint
                       Htoken token_type Hauth Hnet He Hok).
  - pose proof (prints_printed _ _ Hprint) as Hp. unfold body_field in Hp.
    unfold V2.post_gesprov_cliente. rewrite Hkey. cbv zeta.
    unfold body_field in Hcpf. rewrite Hcpf. cbn [negb].
    rewrite bind_eq, Hauth. cbv beta iota.
    rewrite Hp, bind_or_throw_some, bind_eq.
    erewrite gesprovPost_rejected by first [exact Htoken | exact Hnet]. reflexivity.
Qed.


(** X23.  After a successful auth cycle the cliente route sends exactly
    one further call: a POST to the identificacao-cliente endpoint,
    declared text/plain, with the bearer token and the session cookie,
    whose body has the digits of [String(cpf_cnpj)] and the two options,
    "Todos" where the request left them undefined.  [String] gives a text
    as it is and a safe integer in plain decimal. *)
Theorem cliente_upstream_request :
  let option_of k :=
    match body_field req k with
    | Some v => v
    | None => JStr "Todos"
    end in
  let call :=
    mkRequest POST (base_url h ++ "/ges-api/v1/identificacao-cliente")
      [("Content-Type", "text/plain");
       ("Authorization", "Bearer " ++ token_text);
       ("Cookie", cookie);
       ("User-Agent", "railway-proxy");
       ("Accept", "application/json, text/plain, */*")]
      (Some (JObj [("cpf_cnpj", JStr (digits_only cpf_text));
                   ("enviar_contratos", option_of "enviar_contratos");
                   ("enviar_servicos", option_of "enviar_servicos")])) in
  snd (V2.post_gesprov_cliente h req tr) = (tr1 ++ [call])%list
  /\ string_forall is_digit (digits_only cpf_text) = true
  /\ (forall s, body_field req "cpf_cnpj" = Some (JStr s) -> cpf_text = s)
  /\ (forall n, body_field req "cpf_cnpj" = Some (JNum n) ->
                Z.abs n < 9007199254740992 -> cpf_text = string_of_Z n)
  /\ (forall s, token = Some (JStr s) -> token_text = s).
Proof.
  intros option_of call.
  destruct (String_of_prints _ _ _ Hcpf_text) as [_ Hp1].
  destruct (String_of_prints _ _ _ Htoken_text) as [_ Hp2].
  split; [|split; [apply digits_only_all_digits|]].
  - rewrite V2_cliente_trace.
    unfold call, cliente_call, V2.gesprov_request, V2.cliente_body, option_of.
    rewrite Hp1, Hp2.
    destruct (body_field req "enviar_contratos"), (body_field req "enviar_servicos"); reflexivity.
  - split; [|split].
    + intros s Hs. rewrite Hs in Hcpf_text. now injection Hcpf_text.
    + intros n Hn Hsafe. rewrite Hn in Hcpf_text.
      unfold String_of, tpl_val in Hcpf_text. cbn [js_String] in Hcpf_text.
      unfold print_number in Hcpf_text.
      apply Z.ltb_lt in Hsafe. rewrite Hsafe in Hcpf_text. now injection Hcpf_text.
    + intros s Hs. rewrite Hs in Htoken_text. now injection Htoken_text.
Qed.


End UpstreamRequests.

Lemma cliente_upstream_request_witness :
  let h := Demo.server None Demo.session_header Demo.token_ok None in
  let req :=
    mkInbound None None
      (Some (JObj [("cpf_cnpj", JNum 12345678901); ("enviar_contratos", JNull)])) in
  String_of h (body_field req "cpf_cnpj") = Some "12345678901"
  /\ snd (V2.post_gesprov_cliente h req []) =
       (Demo.handshake ++
        [mkRequest POST "http://gesprov.test/ges-api/v1/identificacao-cliente"
           [("Content-Type", "text/plain");
            ("Authorization", "Bearer tok-1");
            ("Cookie", "PHPSESSID=abc123");
            ("User-Agent", "railway-proxy");
            ("Accept", "application/json, text/plain, */*")]
           (Some (JObj [("cpf_cnpj", JStr "12345678901");
                        ("enviar_contratos", JNull);
                        ("enviar_servicos", JStr "Todos")]))])%list.
Proof.
  intros h req. split; [reflexivity|].
  exact (proj1 (cliente_upstream_request h req [] Demo.handshake Demo.cookie Demo.token
                  (Some (JStr "Bearer")) "12345678901" "tok-1"
                  eq_refl eq_refl eq_refl eq_refl eq_refl)).
Defined.




(** X26.  The later [authCycle] reports "GESPROV_URL not set" exactly when
    the variable is unset, empty or the lone slash, and then it has sent
    nothing: the trace is the one it started from. *)
Theorem authCycle_url_not_set_iff :
  forall (h : host) (tr : trace),
    ((exists tr2,
        V2.authCycle h tr =
          (Returned (V2.AuthFail 500 "GESPROV_URL not set" undefined), tr2))
     <-> (GESPROV_URL h = None \/ GESPROV_URL h = Some "" \/ GESPROV_URL h = Some "/"))
    /\ (forall tr2,
          V2.authCycle h tr =
            (Returned (V2.AuthFail 500 "GESPROV_URL not set" undefined), tr2) ->
          tr2 = tr)
    /\ (GESPROV_URL h = None \/ GESPROV_URL h = Some "" \/ GESPROV_URL h = Some "/" ->
        V2.authCycle h tr =
          (Returned (V2.AuthFail 500 "GESPROV_URL not set" undefined), tr)).
Proof.
  intros h tr.
  assert (Hbase : base_url h = "" <->
                  (GESPROV_URL h = None \/ GESPROV_URL h = Some "" \/ GESPROV_URL h = Some "/")).
  { unfold base_url. destruct (GESPROV_URL h) as [u|]; simpl.
    - destruct (strip_trailing_slash_cases u) as [(p & -> & Hs) | (Hs & _)]; rewrite Hs.
      + split.
        * intros ->. right. now right.
        * intros [H | [H | H]]; try discriminate.
          -- destruct p; discriminate.
          -- destruct p as [|? [|? ?]]; [reflexivity | discriminate | discriminate].
      + split.
        * intros ->. right. now left.
        * intros [H | [H | H]]; try discriminate; injection H as ->; try reflexivity.
          simpl in Hs. discriminate.
    - split; [now left | reflexivity]. }
  assert (Hrun : base_url h = "" ->
                 V2.authCycle h tr =
                   (Returned (V2.AuthFail 500 "GESPROV_URL not set" undefined), tr)).
  { intros Hb. unfold V2.authCycle. fold (base_url h). rewrite Hb. reflexivity. }
  assert (Hinv : forall tr2,
                   V2.authCycle h tr =
                     (Returned (V2.AuthFail 500 "GESPROV_URL not set" undefined), tr2) ->
                   base_url h = "").
  { intros tr2 Hfail.
    destruct (string_dec (base_url h) "") as [Hb|Hb]; [exact Hb | exfalso].
    revert Hfail. unfold V2.authCycle. rewrite (base_url_eqb h Hb).
    destruct (negb (truthy_str (GESPROV_CLIENT_ID h)) || negb (truthy_str (GESPROV_CLIENT_SECRET h)));
      [discriminate|].
    rewrite bind_eq. destruct (openSession h _ tr) as [[o|] tr']; [|discriminate].
    cbv beta iota zeta.
    destruct (as_truthy _) as [c|]; [|discriminate].
    rewrite bind_eq. destruct (V2.getToken h _ c tr') as [[[st raw|a t]|] tr3]; discriminate. }
  rewrite <- Hbase. split; [|split].
  - split; [intros [tr2 Hfail]; exact (Hinv tr2 Hfail) | intros Hb; exists tr; exact (Hrun Hb)].
  - intros tr2 Hfail. pose proof (Hrun (Hinv tr2 Hfail)) as Hsame.
    rewrite Hfail in Hsame. now injection Hsame.
  - exact Hrun.
Qed.
